(** * End-to-end scenarios for the Privilee map page

    A shallow embedding of [playwright.config.ts] and of the scenario
    suite ("Privilee Map Page"), and the properties the specification
    states about them.

    The scenarios are clients of a browser.  What the browser shows is
    an input of the model: a [Page] tells, for every instant of the run
    (in milliseconds, on the clock [Date.now()] reads), which elements a
    locator matches and what the navigation timing entry holds.  The
    scenario bodies are written in a small monad [Test] that threads
    the clock and the set of browser contexts the body has opened, and
    in which a failed expectation throws. *)

From Stdlib Require Import ZArith NArith QArith String Ascii List Bool Lia.
From stdpp Require Import base gmap strings.
Import ListNotations.
Open Scope Z_scope.
Open Scope string_scope.

(** ** JavaScript values used by the suite *)

(** Truthiness, as [!!v], [v ? a : b] and [toBeTruthy] read it. *)
Class Truthy (A : Type) := truthy : A -> bool.

#[global] Instance truthy_bool : Truthy bool := fun b => b.

#[global] Instance truthy_string : Truthy string :=
  fun s => match s with EmptyString => false | String _ _ => true end.

(** [null] and [undefined] are [None]. *)
#[global] Instance truthy_option {A : Type} `{Truthy A} : Truthy (option A) :=
  fun o => match o with Some a => truthy a | None => false end.

(** ** playwright.config.ts *)

Module Config.

Record Viewport := { width : N; height : N }.

(** What [browser.newContext] and a device descriptor carry. *)
Record ContextOptions := {
  viewport : Viewport;
  userAgent : string;
}.

Record Use := {
  baseURL : string;
  trace : string;
  screenshot : string;
}.

Record LaunchOptions := { args : list string }.

Record Project := {
  name : string;
  device : ContextOptions;
  channel : string;
  headless : bool;
  launchOptions : LaunchOptions;
}.

Record PlaywrightConfig := {
  testDir : string;
  fullyParallel : bool;
  forbidOnly : bool;
  retries : N;
  workers : option N;
  reporter : list (string * list (string * string));
  use : Use;
  projects : list Project;
}.

Section WithDevices.

(** The device table of @playwright/test, which the configuration
    spreads into its only project. *)
Variable devices : string -> ContextOptions.

(** [defineConfig({...})], as a function of [process.env]. *)
Definition config (env : gmap string string) : PlaywrightConfig :=
  let CI := env !! "CI" in
  {| testDir := "./tests";
     fullyParallel := true;
     forbidOnly := negb (negb (truthy CI));
     retries := if truthy CI then 1%N else 0%N;
     workers := if truthy CI then Some 1%N else None;
     reporter := [("html", [("open", "never")])];
     use := {| baseURL := "https://staging-website.privilee.ae";
               trace := "on-first-retry";
               screenshot := "only-on-failure" |};
     projects :=
       [ {| name := "chromium";
            device := devices "Desktop Chrome";
            channel := "chromium";
            headless := false;
            launchOptions :=
              {| args := ["--disable-blink-features=AutomationControlled"] |}
         |} ] |}.

End WithDevices.

End Config.

(** ** The browser, as the scenarios see it *)

Module Playwright.

Import Config.

(** A string or a regular expression literal (source and flags), as
    the argument of [getByRole], [getByText] and [filter]. *)
Inductive Pattern :=
  | Str (s : string)
  | Regex (source : string) (flags : string).

Inductive Locator :=
  | locator (selector : string)
  | getByRole (role : string) (name : Pattern)
  | getByText (text : string)
  | filter_hasText (l : Locator) (hasText : Pattern)
  | first (l : Locator).

#[global] Instance Pattern_eq_dec : EqDecision Pattern.
Proof. solve_decision. Defined.

#[global] Instance Locator_eq_dec : EqDecision Locator.
Proof. solve_decision. Defined.

Record BoundingBox := { box_x : Q; box_y : Q; box_width : Q; box_height : Q }.

(** What the suite reads of an element. [el_enabled] stands for the
    rest of the actionability checks of [click] (stable, enabled,
    receiving events). *)
Record Element := {
  el_visible : bool;
  el_enabled : bool;
  el_textContent : option string;
  el_attributes : gmap string string;
  el_boundingBox : option BoundingBox;
}.

(** The fields of the navigation timing entry the suite reads. *)
Record PerformanceNavigationTiming := {
  startTime : Q;
  requestStart : Q;
  responseStart : Q;
  domContentLoadedEventEnd : Q;
  loadEventEnd : Q;
}.

Inductive LoadState := load | domcontentloaded | networkidle.

(** One page during one run of a scenario: what it shows at every
    instant, the effects of the scenario's own clicks included.  Time
    is the first argument of every field. *)
Record Page := {
  (** the elements a locator without [first] matches, in document order *)
  dom : Z -> Locator -> list Element;
  (** a navigation to the URL issued at that instant reaches the load
      state after so many milliseconds; [None]: it fails *)
  navigation : Z -> string -> LoadState -> option N;
  (** milliseconds until the page is in the load state; [None]: never *)
  loadState : Z -> LoadState -> option N;
  (** [performance.getEntriesByType("navigation")] *)
  navigationEntries : Z -> list PerformanceNavigationTiming;
  (** [document.documentElement.scrollWidth] and [window.innerWidth] *)
  scrollWidth : Z -> Z;
  innerWidth : Z -> Z;
}.

(** The site under test: the page a context with the given options gets. *)
Record Browser := { site : ContextOptions -> Page }.

Record BrowserContext := {
  ctx_id : nat;
  ctx_options : ContextOptions;
  ctx_page : Page;
}.

(** *** The test monad *)

Inductive Error :=
  | AssertionError (matcher : string)
  | TimeoutError (api : string)
  | StrictModeViolation (api : string)
  | NavigationError
  | TypeError.

Inductive Outcome (A : Type) :=
  | Returned (a : A)
  | Thrown (e : Error).
Arguments Returned {A} a.
Arguments Thrown {A} e.

(** The clock, and the contexts the scenario body has created and
    not closed. *)
Record World := {
  now : Z;
  next_context : nat;
  open_contexts : list nat;
}.

Definition Test (A : Type) : Type := World -> Outcome A * World.

Definition ret {A : Type} (a : A) : Test A := fun w => (Returned a, w).

Definition throw {A : Type} (e : Error) : Test A := fun w => (Thrown e, w).

Definition bind {A B : Type} (m : Test A) (k : A -> Test B) : Test B :=
  fun w =>
    match m w with
    | (Returned a, w') => k a w'
    | (Thrown e, w') => (Thrown e, w')
    end.

Definition at_time (t : Z) (w : World) : World :=
  {| now := t; next_context := next_context w; open_contexts := open_contexts w |}.

(** Sequencing: [await a; b], where a rejected promise ends the body. *)
Declare Scope test_scope.
Delimit Scope test_scope with test.
Notation "x <- m ;; k" := (bind m (fun x => k))
  (at level 100, m at next level, right associativity) : test_scope.
Notation "m ;; k" := (bind m (fun _ => k))
  (at level 100, right associativity) : test_scope.
Open Scope test_scope.

(** [Date.now()] *)
Definition Date_now : Test Z := fun w => (Returned (now w), w).

(** [page.waitForTimeout(ms)] *)
Definition waitForTimeout (ms : N) : Test unit :=
  fun w => (Returned tt, at_time (now w + Z.of_N ms) w).

(** *** Locators *)

(** A locator is resolved anew at every use; [first] keeps the first
    element of what the rest of the locator matches. *)
Fixpoint resolve (page : Page) (t : Z) (l : Locator) : list Element :=
  match l with
  | first l' => take 1 (resolve page t l')
  | _ => dom page t l
  end.

(** [locator.count()] reads the page once and does not wait. *)
Definition count (page : Page) (l : Locator) : Test N :=
  fun w => (Returned (N.of_nat (length (resolve page (now w) l))), w).

(** *** Waiting *)

(** One look at the page: the condition holds, does not hold yet, or
    the locator matches several elements (strict mode). *)
Inductive Verdict := Holds | Pending | Strict.

Definition the_element (ready : Element -> bool) (els : list Element) : Verdict :=
  match els with
  | [] => Pending
  | [e] => if ready e then Holds else Pending
  | _ :: _ :: _ => Strict
  end.

Definition attached (page : Page) (l : Locator) (t : Z) : Verdict :=
  the_element (fun _ => true) (resolve page t l).

Definition visible (page : Page) (l : Locator) (t : Z) : Verdict :=
  the_element el_visible (resolve page t l).

Definition actionable (page : Page) (l : Locator) (t : Z) : Verdict :=
  the_element (fun e => el_visible e && el_enabled e) (resolve page t l).

Definition hidden (page : Page) (l : Locator) (t : Z) : Verdict :=
  match resolve page t l with
  | [] => Holds
  | [e] => if el_visible e then Pending else Holds
  | _ :: _ :: _ => Strict
  end.

Inductive Polled := Settled (t : Z) | Violated (t : Z) | Expired.

(** Look at [t], [t+1], ... , [t+fuel] and stop at the first instant
    that is not [Pending]. *)
Fixpoint poll (check : Z -> Verdict) (t : Z) (fuel : nat) : Polled :=
  match check t with
  | Holds => Settled t
  | Strict => Violated t
  | Pending =>
      match fuel with
      | O => Expired
      | S fuel' => poll check (t + 1) fuel'
      end
  end.

(** A retrying assertion or an auto-waiting action with its timeout. *)
Definition retry (api : string) (check : Z -> Verdict) (timeout : N) : Test unit :=
  fun w =>
    match poll check (now w) (N.to_nat timeout) with
    | Settled t => (Returned tt, at_time t w)
    | Violated t => (Thrown (StrictModeViolation api), at_time t w)
    | Expired => (Thrown (TimeoutError api), at_time (now w + Z.of_N timeout) w)
    end.

(** The timeout of [expect(locator)] when none is given: the
    configuration sets no [expect.timeout]. *)
Definition expect_timeout : N := 5000.

(** The configuration sets neither [timeout], [actionTimeout] nor
    [navigationTimeout]: an action or a navigation is given up when the
    test's 30 seconds are over.  The bound is applied here to each call
    on its own, and the world keeps no deadline for the whole test: a
    run that returns in the runner returns here, and not the other way
    round, so that what is stated of the runs that return holds of the
    runner too, while a run of more than 30 seconds may return here
    only. *)
Definition test_timeout : N := 30000.

(** *** expect(locator) *)

Definition toBeVisible (page : Page) (l : Locator) (timeout : N) : Test unit :=
  retry "toBeVisible" (visible page l) timeout.

Definition toBeAttached (page : Page) (l : Locator) (timeout : N) : Test unit :=
  retry "toBeAttached" (attached page l) timeout.

Definition toBeHidden (page : Page) (l : Locator) (timeout : N) : Test unit :=
  retry "toBeHidden" (hidden page l) timeout.

(** *** Actions and reads on a locator *)

(** After a successful wait the locator matches one element. *)
Definition element (api : string) (page : Page) (l : Locator) : Test Element :=
  fun w =>
    match resolve page (now w) l with
    | [e] => (Returned e, w)
    | _ => (Thrown (TimeoutError api), w)
    end.

Definition click (page : Page) (l : Locator) : Test unit :=
  retry "click" (actionable page l) test_timeout.

Definition textContent (page : Page) (l : Locator) : Test (option string) :=
  retry "textContent" (attached page l) test_timeout ;;
  e <- element "textContent" page l ;;
  ret (el_textContent e).

Definition getAttribute (page : Page) (l : Locator) (name : string)
  : Test (option string) :=
  retry "getAttribute" (attached page l) test_timeout ;;
  e <- element "getAttribute" page l ;;
  ret (el_attributes e !! name).

Definition boundingBox (page : Page) (l : Locator) : Test (option BoundingBox) :=
  retry "boundingBox" (attached page l) test_timeout ;;
  e <- element "boundingBox" page l ;;
  ret (el_boundingBox e).

(** *** The page *)

Definition reach (api : string) (after : option N) : Test unit :=
  fun w =>
    match after with
    | Some d =>
        if (d <=? test_timeout)%N
        then (Returned tt, at_time (now w + Z.of_N d) w)
        else (Thrown (TimeoutError api), at_time (now w + Z.of_N test_timeout) w)
    | None => (Thrown NavigationError, w)
    end.

(** [page.goto(url, { waitUntil })]; [waitUntil] is [load] when omitted. *)
Definition goto (page : Page) (url : string) (waitUntil : LoadState) : Test unit :=
  fun w => reach "goto" (navigation page (now w) url waitUntil) w.

Definition waitForLoadState (page : Page) (state : LoadState) : Test unit :=
  fun w => reach "waitForLoadState" (loadState page (now w) state) w.

(** [page.evaluate(f)]: [f] runs in the page, at the present instant;
    what it throws there is thrown here. *)
Definition evaluate {A : Type} (page : Page) (f : Page -> Z -> Outcome A) : Test A :=
  fun w => (f page (now w), w).

(** *** Browser contexts *)

Definition newContext (browser : Browser) (options : Config.ContextOptions)
  : Test BrowserContext :=
  fun w =>
    let id := next_context w in
    (Returned {| ctx_id := id; ctx_options := options; ctx_page := site browser options |},
     {| now := now w; next_context := S id; open_contexts := id :: open_contexts w |}).

Definition newPage (context : BrowserContext) : Test Page :=
  ret (ctx_page context).

Definition close (context : BrowserContext) : Test unit :=
  fun w =>
    (Returned tt,
     {| now := now w;
        next_context := next_context w;
        open_contexts :=
          List.filter (fun id => negb (Nat.eqb id (ctx_id context))) (open_contexts w) |}).

(** *** expect(value) *)

(** JavaScript numbers, as the rationals they denote: a difference is
    taken exactly and is not rounded to a double.  Rounding is monotone
    and the thresholds are doubles, so that a comparison that holds of
    the doubles holds here. *)
Definition number : Type := Q.

Definition Qltb (x y : Q) : bool := negb (Qle_bool y x).

Definition expect (matcher : string) (pass : bool) : Test unit :=
  if pass then ret tt else throw (AssertionError matcher).

Definition toBeLessThan (received expected : number) : Test unit :=
  expect "toBeLessThan" (Qltb received expected).
Arguments toBeLessThan (received expected)%_Q.

Definition toBeGreaterThan (received expected : number) : Test unit :=
  expect "toBeGreaterThan" (Qltb expected received).
Arguments toBeGreaterThan (received expected)%_Q.

Definition toBeGreaterThanOrEqual (received expected : number) : Test unit :=
  expect "toBeGreaterThanOrEqual" (Qle_bool expected received).
Arguments toBeGreaterThanOrEqual (received expected)%_Q.

Definition toBeTruthy {A : Type} `{Truthy A} (received : A) : Test unit :=
  expect "toBeTruthy" (truthy received).

Definition toBeFalsy {A : Type} `{Truthy A} (received : A) : Test unit :=
  expect "toBeFalsy" (negb (truthy received)).

(** [expect(received).not.toEqual(expected)] on [string | null]. *)
Definition not_toEqual (received expected : option string) : Test unit :=
  expect "not.toEqual" (negb (bool_decide (received = expected))).

(** [expect(received).not.toBeNull()] *)
Definition not_toBeNull {A : Type} (received : option A) : Test unit :=
  expect "not.toBeNull" (match received with Some _ => true | None => false end).

(** [expect(received).toMatch(/^\//)]: a string that begins with a
    slash; [null] is not a string and fails the matcher. *)
Definition toMatch_leading_slash (received : option string) : Test unit :=
  expect "toMatch"
    (match received with
     | Some (String c _) => bool_decide (c = "/"%char)
     | _ => false
     end).

Definition of_Z (z : Z) : number := inject_Z z.

Definition of_N (n : N) : number := inject_Z (Z.of_N n).

(** Running a body from a fresh world whose clock reads [t0]. *)
Definition start (t0 : Z) : World :=
  {| now := t0; next_context := O; open_contexts := [] |}.

Definition run {A : Type} (body : Test A) (t0 : Z) : Outcome A * World :=
  body (start t0).

Definition passes (body : Test unit) (t0 : Z) : Prop :=
  fst (run body t0) = Returned tt.

End Playwright.

(** ** The scenario suite: "Privilee Map Page" *)

Module MapPage.

Import Config Playwright.
Open Scope test_scope.

(** [for (const x of xs) { await body(x) }] *)
Fixpoint for_of {A : Type} (xs : list A) (body : A -> Test unit) : Test unit :=
  match xs with
  | [] => ret tt
  | x :: xs' => body x ;; for_of xs' body
  end.

(** *** should load page with all core UI elements visible *)

Definition should_load_page_with_all_core_UI_elements_visible (page : Page)
  : Test unit :=
  goto page "/map" load ;;
  let header := first (locator "header") in
  toBeVisible page header expect_timeout ;;
  let mapCanvas := locator ".mapboxgl-map, .mapboxgl-canvas" in
  toBeVisible page (first mapCanvas) 15000 ;;
  let filters :=
    getByRole "button" (Regex "pool|fitness|family|dining|waterpark" "i") in
  n <- count page filters ;;
  toBeGreaterThanOrEqual (of_N n) 1 ;;
  let joinCTA := first (getByRole "link" (Regex "join" "i")) in
  toBeVisible page joinCTA expect_timeout.

(** *** should toggle category filters and update venue display *)

Definition categories : list string :=
  [ "Pool & beach"; "Fitness"; "Family activities"; "Dining"; "Waterparks" ].

Definition venueHeading : Locator :=
  first (filter_hasText
           (locator "h2, h3, [class*='count'], [class*='heading']")
           (Regex "\d+.*venue" "i")).

(** The body up to its last line: the two texts it has read. *)
Definition venue_texts (page : Page) : Test (option string * option string) :=
  goto page "/map" load ;;
  waitForLoadState page networkidle ;;
  for_of categories (fun category =>
    let filterBtn := getByRole "button" (Str category) in
    toBeVisible page filterBtn 10000) ;;
  let poolFilter := getByRole "button" (Str "Pool & beach") in
  click page poolFilter ;;
  waitForTimeout 1000 ;;
  initialText <- textContent page venueHeading ;;
  let fitnessFilter := getByRole "button" (Str "Fitness") in
  click page fitnessFilter ;;
  waitForTimeout 1000 ;;
  updatedText <- textContent page venueHeading ;;
  ret (initialText, updatedText).

Definition should_toggle_category_filters_and_update_venue_display (page : Page)
  : Test unit :=
  texts <- venue_texts page ;;
  let (initialText, updatedText) := texts in
  not_toEqual updatedText initialText.

(** *** should render interactive Mapbox map *)

Definition should_render_interactive_Mapbox_map (page : Page) : Test unit :=
  goto page "/map" load ;;
  let mapContainer := locator ".mapboxgl-map" in
  toBeVisible page mapContainer 15000 ;;
  let canvas := locator ".mapboxgl-canvas" in
  toBeAttached page canvas expect_timeout ;;
  let zoomIn := locator ".mapboxgl-ctrl-zoom-in" in
  let zoomOut := locator ".mapboxgl-ctrl-zoom-out" in
  n <- count page zoomIn ;;
  if (0 <? n)%N then
    click page zoomIn ;;
    waitForTimeout 500 ;;
    click page zoomOut
  else
    box <- boundingBox page canvas ;;
    not_toBeNull box ;;
    match box with
    | Some b =>
        toBeGreaterThan (box_width b) 0 ;;
        toBeGreaterThan (box_height b) 0
    | None => throw TypeError
    end.

(** *** should load within acceptable performance thresholds *)

Record PerformanceMetrics := {
  domContentLoaded : number;
  loadComplete : number;
  ttfb : number;
}.

(** The function the scenario evaluates in the page. *)
Definition performanceMetrics (page : Page) (t : Z) : Outcome PerformanceMetrics :=
  match navigationEntries page t with
  | navigation :: _ =>
      Returned
        {| domContentLoaded :=
             (domContentLoadedEventEnd navigation - startTime navigation)%Q;
           loadComplete := (loadEventEnd navigation - startTime navigation)%Q;
           ttfb := (responseStart navigation - requestStart navigation)%Q |}
  | [] => Thrown TypeError
  end.

Definition should_load_within_acceptable_performance_thresholds (page : Page)
  : Test unit :=
  startTime <- Date_now ;;
  goto page "/map" domcontentloaded ;;
  t <- Date_now ;;
  let domLoadTime := t - startTime in
  toBeLessThan (of_Z domLoadTime) 8000 ;;
  let mapCanvas := locator ".mapboxgl-canvas" in
  toBeAttached page mapCanvas 15000 ;;
  t <- Date_now ;;
  let mapRenderTime := t - startTime in
  toBeLessThan (of_Z mapRenderTime) 15000 ;;
  metrics <- evaluate page performanceMetrics ;;
  toBeLessThan (ttfb metrics) 2000.

(** *** should display venue data after loading *)

Definition is_digit (c : ascii) : bool :=
  (48 <=? nat_of_ascii c)%nat && (nat_of_ascii c <=? 57)%nat.

(** The longest run of decimal digits a string begins with. *)
Fixpoint digits (s : string) : string :=
  match s with
  | String c s' => if is_digit c then String c (digits s') else ""
  | "" => ""
  end.

(** [s.match(/(\d+)/)], reduced to its first group: the leftmost run of
    digits, as long as it goes; [None] is [null]. *)
Fixpoint match_digits (s : string) : option string :=
  match s with
  | String c s' => if is_digit c then Some (digits s) else match_digits s'
  | "" => None
  end.

Definition is_space (c : ascii) : bool :=
  ((9 <=? nat_of_ascii c)%nat && (nat_of_ascii c <=? 13)%nat)
  || (nat_of_ascii c =? 32)%nat.

Fixpoint trimStart (s : string) : string :=
  match s with
  | String c s' => if is_space c then trimStart s' else s
  | "" => ""
  end.

Fixpoint decimal (acc : Z) (s : string) : Z :=
  match s with
  | String c s' => decimal (10 * acc + (Z.of_nat (nat_of_ascii c) - 48)) s'
  | "" => acc
  end.

(** [parseInt(s, 10)]; [None] is [NaN].  The value is the integer the
    digits denote, where JavaScript rounds it to a double; it is zero,
    or positive, exactly when the double is. *)
Definition parseInt (s : string) : option Z :=
  let s := trimStart s in
  let (sign, s) :=
    match s with
    | String "-" s' => (-1, s')
    | String "+" s' => (1, s')
    | _ => (1, s)
    end in
  match digits s with
  | "" => None
  | ds => Some (sign * decimal 0 ds)
  end.

Definition should_display_venue_data_after_loading (page : Page) : Test unit :=
  goto page "/map" load ;;
  waitForLoadState page networkidle ;;
  let loadingText := getByText "Loading venues..." in
  n <- count page loadingText ;;
  (if (0 <? n)%N then toBeHidden page loadingText 15000 else ret tt) ;;
  let showVenuesBtn := getByRole "button" (Regex "show.*venue" "i") in
  n <- count page showVenuesBtn ;;
  (if (0 <? n)%N then
     btnText <- textContent page showVenuesBtn ;;
     let match_ := match btnText with Some s => match_digits s | None => None end in
     match match_ with
     | Some group1 =>
         match parseInt group1 with
         | Some venueCount => toBeGreaterThan (of_Z venueCount) 0
         | None => throw (AssertionError "toBeGreaterThan")
         end
     | None => ret tt
     end
   else ret tt) ;;
  let images :=
    locator "img[src*='prismic'], img[src*='venue'], img[alt]" in
  imageCount <- count page images ;;
  toBeGreaterThan (of_N imageCount) 0.

(** *** should have correct navigation links in header *)

Record NavItem := { name : Pattern }.

Definition expectedNavItems : list NavItem :=
  [ {| name := Regex "pool.*beach" "i" |};
    {| name := Regex "gym|fitness" "i" |};
    {| name := Regex "family" "i" |};
    {| name := Regex "dining" "i" |} ].

Definition should_have_correct_navigation_links_in_header (page : Page)
  : Test unit :=
  goto page "/map" load ;;
  for_of expectedNavItems (fun navItem =>
    let link := first (getByRole "link" (name navItem)) in
    toBeAttached page link expect_timeout ;;
    href <- getAttribute page link "href" ;;
    toBeTruthy href ;;
    toMatch_leading_slash href) ;;
  let joinLink := first (getByRole "link" (Regex "join now" "i")) in
  toBeVisible page joinLink expect_timeout ;;
  joinHref <- getAttribute page joinLink "href" ;;
  toBeTruthy joinHref.

(** *** should display correctly on mobile viewport *)

Definition quote : string := String (ascii_of_nat 34) "".

Definition menuToggle : Locator :=
  locator
    (String.concat ""
       [ "button[aria-label*="; quote; "menu"; quote; " i], ";
         "button[aria-label*="; quote; "nav"; quote; " i], ";
         "[class*="; quote; "hamburger"; quote; " i], ";
         "[class*="; quote; "menu-toggle"; quote; " i], ";
         "[class*="; quote; "MenuToggle"; quote; "], ";
         "header button" ]).

Definition mobile : ContextOptions :=
  {| viewport := {| width := 375; height := 812 |};
     userAgent :=
       "Mozilla/5.0 (iPhone; CPU iPhone OS 16_0 like Mac OS X) AppleWebKit/605.1.15 (KHTML, like Gecko) Version/16.0 Mobile/15E148 Safari/604.1" |}.

Definition hasHorizontalOverflow (page : Page) (t : Z) : Outcome bool :=
  Returned (scrollWidth page t >? innerWidth page t).

Definition should_display_correctly_on_mobile_viewport (browser : Browser)
  : Test unit :=
  context <- newContext browser mobile ;;
  page <- newPage context ;;
  goto page "/map" load ;;
  waitForLoadState page networkidle ;;
  n <- count page menuToggle ;;
  let menuVisible := (0 <? n)%N in
  toBeTruthy menuVisible ;;
  let mapCanvas := locator ".mapboxgl-map, .mapboxgl-canvas" in
  toBeVisible page (first mapCanvas) 15000 ;;
  overflow <- evaluate page hasHorizontalOverflow ;;
  toBeFalsy overflow ;;
  close context.

(** *** The suite and its fixtures *)

Inductive Scenario :=
  | page_test (title : string) (body : Page -> Test unit)
  | browser_test (title : string) (body : Browser -> Test unit).

Definition suite : list Scenario :=
  [ page_test "should load page with all core UI elements visible"
      should_load_page_with_all_core_UI_elements_visible;
    page_test "should toggle category filters and update venue display"
      should_toggle_category_filters_and_update_venue_display;
    page_test "should render interactive Mapbox map"
      should_render_interactive_Mapbox_map;
    page_test "should load within acceptable performance thresholds"
      should_load_within_acceptable_performance_thresholds;
    page_test "should display venue data after loading"
      should_display_venue_data_after_loading;
    page_test "should have correct navigation links in header"
      should_have_correct_navigation_links_in_header;
    browser_test "should display correctly on mobile viewport"
      should_display_correctly_on_mobile_viewport ].

(** The [page] fixture is a page of a context the runner opens with the
    project's options and closes itself; the [browser] fixture is the
    browser. *)
Definition run_scenario (project : Project) (browser : Browser)
  (scenario : Scenario) (t0 : Z) : Outcome unit * World :=
  match scenario with
  | page_test _ body => run (body (site browser (device project))) t0
  | browser_test _ body => run (body browser) t0
  end.

End MapPage.

(** ** The vocabulary of the properties *)

Module Spec.

Import Config Playwright MapPage.

(** [check] holds at [t'], an instant of the [timeout] milliseconds
    that begin at [t]. *)
Definition within (check : Z -> Verdict) (t : Z) (timeout : N) (t' : Z) : Prop :=
  t <= t' <= t + Z.of_N timeout /\ check t' = Holds.

(** A read that began at [t] returned at [t'], where the locator
    resolves to the one element [e]. *)
Definition reads (page : Page) (l : Locator) (t : Z) (t' : Z) (e : Element) : Prop :=
  t <= t' <= t + Z.of_N test_timeout /\ resolve page t' l = [e].

(** *** The locators of the scenario bodies *)

(** core elements, mobile viewport *)
Definition header : Locator := first (locator "header").
Definition mapSurface : Locator := first (locator ".mapboxgl-map, .mapboxgl-canvas").
Definition filters : Locator :=
  getByRole "button" (Regex "pool|fitness|family|dining|waterpark" "i").
Definition joinCTA : Locator := first (getByRole "link" (Regex "join" "i")).

(** filter toggling *)
Definition poolFilter : Locator := getByRole "button" (Str "Pool & beach").
Definition fitnessFilter : Locator := getByRole "button" (Str "Fitness").

(** map interactivity, load performance *)
Definition mapContainer : Locator := locator ".mapboxgl-map".
Definition canvas : Locator := locator ".mapboxgl-canvas".
Definition zoomIn : Locator := locator ".mapboxgl-ctrl-zoom-in".
Definition zoomOut : Locator := locator ".mapboxgl-ctrl-zoom-out".

(** venue data *)
Definition loadingText : Locator := getByText "Loading venues...".
Definition showVenuesBtn : Locator := getByRole "button" (Regex "show.*venue" "i").
Definition images : Locator :=
  locator "img[src*='prismic'], img[src*='venue'], img[alt]".

(** navigation links *)
Definition link (navItem : NavItem) : Locator :=
  first (getByRole "link" (name navItem)).
Definition joinLink : Locator := first (getByRole "link" (Regex "join now" "i")).

(** *** Navigation links *)

(** What one turn of the loop has checked when it returns: from [t]
    on, the first matching link is attached within the expect timeout,
    and the one element the locator then resolves to has an [href]
    that is not empty and begins with a slash. *)
Definition link_checked (page : Page) (navItem : NavItem) (t t' : Z) : Prop :=
  exists t_attached e href rest,
    within (attached page (link navItem)) t expect_timeout t_attached /\
    reads page (link navItem) t_attached t' e /\
    el_attributes e !! "href" = Some href /\
    href <> "" /\
    href = String "/" rest.

(** *** The run configuration *)

(** The continuous-integration flag is set: [process.env.CI] is
    defined and is not the empty string. *)
Definition CI_set (env : gmap string string) : Prop :=
  exists value, env !! "CI" = Some value /\ value <> "".

(** *** Load performance *)

(** The same page with other values of [loadEventEnd]. *)
Definition with_loadEventEnd (v : Z -> PerformanceNavigationTiming -> Q)
  (page : Page) : Page :=
  {| dom := dom page;
     navigation := navigation page;
     loadState := loadState page;
     navigationEntries := fun t =>
       List.map
         (fun e =>
            {| startTime := startTime e;
               requestStart := requestStart e;
               responseStart := responseStart e;
               domContentLoadedEventEnd := domContentLoadedEventEnd e;
               loadEventEnd := v t e |})
         (navigationEntries page t);
     scrollWidth := scrollWidth page;
     innerWidth := innerWidth page |}.

(** *** Venue data *)

Fixpoint all_digits (s : string) : bool :=
  match s with
  | String c s' => is_digit c && all_digits s'
  | "" => true
  end.

(** *** Mobile viewport *)

(** [haystack.includes(needle)] *)
Fixpoint includes (needle haystack : string) : bool :=
  String.prefix needle haystack ||
  match haystack with
  | String _ rest => includes needle rest
  | "" => false
  end.

(** *** Browser contexts *)

(** The two worlds have the same contexts open. *)
Definition same_contexts (w w' : World) : Prop :=
  open_contexts w' = open_contexts w /\ next_context w' = next_context w.

(** A body that neither opens nor closes a context, however it ends. *)
Definition keeps_contexts {A : Type} (m : Test A) : Prop :=
  forall w, same_contexts w (snd (m w)).

(** A scenario leaves no context open, whatever the site shows. *)
Definition leaves_no_context (scenario : Scenario) : Prop :=
  forall project browser t0,
    open_contexts (snd (run_scenario project browser scenario t0)) = [].

End Spec.

(** ** Sample pages *)

Module Samples.

Import Config Playwright MapPage.

Definition box : BoundingBox :=
  {| box_x := 0; box_y := 64; box_width := 1280; box_height := 656 |}%Q.

(** An element with a text and a destination, shown or not. *)
Definition element (shown : bool) (text href : string) : Element :=
  {| el_visible := shown;
     el_enabled := true;
     el_textContent := Some text;
     el_attributes := {[ "href" := href ]};
     el_boundingBox := if shown then Some box else None |}.

Definition entry : PerformanceNavigationTiming :=
  {| startTime := 0;
     requestStart := 35;
     responseStart := 240;
     domContentLoadedEventEnd := 900;
     loadEventEnd := 1150 |}%Q.

(** A page that answers every navigation in [ms] milliseconds, is idle
    0.4 s later, and whose elements are those of [dom]. *)
Definition page_of (dom : Z -> Locator -> list Element) (ms : N)
  (entries : list PerformanceNavigationTiming) (scrollWidth : Z) : Page :=
  {| Playwright.dom := dom;
     navigation := fun _ _ _ => Some ms;
     loadState := fun _ _ => Some 400%N;
     navigationEntries := fun _ => entries;
     Playwright.scrollWidth := fun _ => scrollWidth;
     innerWidth := fun _ => 375 |}.

(** A page on which every locator matches one element, which is shown:
    a link to "/join" labelled "Show 24 venues". *)
Definition plain_page : Page :=
  page_of (fun _ _ => [element true "Show 24 venues" "/join"]) 1200 [entry] 375.

(** A page whose category buttons are in the accessibility tree but
    have no size, so that they are not visible. *)
Definition collapsed_filters_page : Page :=
  page_of
    (fun _ l =>
       match l with
       | getByRole "button" _ => [element false "Pool & beach" ""]
       | _ => [element true "Join now" "/join"]
       end)
    1200 [entry] 375.

(** A page whose request leaves 1.9 s after the navigation starts
    (redirects, name lookup, connection) and is answered 0.2 s later. *)
Definition late_request : PerformanceNavigationTiming :=
  {| startTime := 0;
     requestStart := 1900;
     responseStart := 2100;
     domContentLoadedEventEnd := 2900;
     loadEventEnd := 3400 |}%Q.

Definition late_request_page : Page :=
  page_of (fun _ _ => [element true "" "/"]) 3000 [late_request] 375.

(** A page whose venue heading changes three seconds into the run,
    after the second filter is clicked. *)
Definition toggling_page : Page :=
  page_of
    (fun t l =>
       match l with
       | filter_hasText _ _ =>
           [element true (if (t <? 3000)%Z then "24 venues" else "9 venues") ""]
       | _ => [element true "Fitness" ""]
       end)
    1200 [entry] 375.

(** A page without a loading indicator. *)
Definition loaded_page : Page :=
  page_of
    (fun _ l =>
       match l with
       | getByText _ => []
       | _ => [element true "Show 24 venues" ""]
       end)
    1200 [entry] 375.

(** A site that shows the same page to every context. *)
Definition plain_browser : Browser := {| site := fun _ => plain_page |}.

(** A site whose page has nothing that looks like a menu toggle. *)
Definition no_menu_browser : Browser :=
  {| site := fun _ =>
       page_of
         (fun _ l =>
            if bool_decide (l = menuToggle) then []
            else [element true "" ""])
         1200 [entry] 375 |}.

End Samples.

(** ** Further vocabulary *)

Module Vocabulary.

Import Config Playwright MapPage Spec.

(** [t'] is the first instant, of the [timeout] milliseconds that
    begin at [t], at which [check] is not pending, and it holds there. *)
Definition first_within (check : Z -> Verdict) (t : Z) (timeout : N) (t' : Z) : Prop :=
  within check t timeout t' /\ forall u, t <= u < t' -> check u = Pending.

(** A body that never ends on a strict-mode violation. *)
Definition never_ambiguous {A : Type} (m : Test A) : Prop :=
  forall w api, fst (m w) <> Thrown (StrictModeViolation api).

(** The same page with other navigation timing entries. *)
Definition with_navigationEntries (entries : Z -> list PerformanceNavigationTiming)
  (page : Page) : Page :=
  {| dom := dom page;
     navigation := navigation page;
     loadState := loadState page;
     navigationEntries := entries;
     scrollWidth := scrollWidth page;
     innerWidth := innerWidth page |}.

(** Two lists of entries that are both empty, or whose first entries
    have the same distance between request and response. *)
Definition same_first_response (es es' : list PerformanceNavigationTiming) : Prop :=
  match es, es' with
  | [], [] => True
  | e :: _, e' :: _ =>
      (responseStart e - requestStart e == responseStart e' - requestStart e')%Q
  | _, _ => False
  end.

(** The same element, shown or not. *)
Definition with_visible (shown : bool) (e : Element) : Element :=
  {| el_visible := shown;
     el_enabled := el_enabled e;
     el_textContent := el_textContent e;
     el_attributes := el_attributes e;
     el_boundingBox := el_boundingBox e |}.

(** The same page, whose elements are shown or not as [shown] says;
    every locator matches what it matched. *)
Definition with_visibility (shown : Z -> Element -> bool) (page : Page) : Page :=
  {| dom := fun t l =>
       List.map (fun e => with_visible (shown t e) e) (dom page t l);
     navigation := navigation page;
     loadState := loadState page;
     navigationEntries := navigationEntries page;
     scrollWidth := scrollWidth page;
     innerWidth := innerWidth page |}.

(** No character of the string is a decimal digit. *)
Fixpoint no_digit (s : string) : bool :=
  match s with
  | String c s' => negb (is_digit c) && no_digit s'
  | "" => true
  end.

(** Every character of the string is the digit zero. *)
Fixpoint all_zeros (s : string) : bool :=
  match s with
  | String c s' => bool_decide (c = "0"%char) && all_zeros s'
  | "" => true
  end.

(** The string does not begin with a digit. *)
Definition no_leading_digit (s : string) : bool :=
  match s with
  | String c _ => negb (is_digit c)
  | "" => true
  end.

(** The natural number a run of decimal digits denotes. *)
Fixpoint numeral (s : string) : N :=
  match s with
  | String c s' =>
      (N.of_nat (nat_of_ascii c) - 48) * 10 ^ N.of_nat (String.length s')
      + numeral s'
  | "" => 0
  end%N.

(** The two lines of the venue-data scenario that follow a match:
    [const venueCount = parseInt(match[1], 10)] and
    [expect(venueCount).toBeGreaterThan(0)]. *)
Definition expect_venueCount (group1 : string) : Test unit :=
  match parseInt group1 with
  | Some venueCount => toBeGreaterThan (of_Z venueCount) 0
  | None => throw (AssertionError "toBeGreaterThan")
  end.

(** *** More sample pages *)

(** The plain page, whose navigation timing entry is shifted by 100 ms
    and followed by a second one. *)
Definition shifted_entries : list PerformanceNavigationTiming :=
  [ {| startTime := 100;
       requestStart := 135;
       responseStart := 340;
       domContentLoadedEventEnd := 9000;
       loadEventEnd := 0 |}%Q;
    Samples.late_request ].

(** A page that has no navigation timing entry. *)
Definition no_entry_page : Page :=
  Samples.page_of (fun _ _ => [Samples.element true "" "/"]) 1200 [] 375.

(** A page with two maps. *)
Definition two_maps_page : Page :=
  Samples.page_of
    (fun _ l =>
       if bool_decide (l = mapContainer)
       then [Samples.element true "" ""; Samples.element true "" ""]
       else [Samples.element true "" ""])
    1200 [Samples.entry] 375.

(** A map that has a zoom-in control and no zoom-out control. *)
Definition no_zoom_out_page : Page :=
  Samples.page_of
    (fun _ l =>
       if bool_decide (l = zoomOut) then []
       else [Samples.element true "" ""])
    1200 [Samples.entry] 375.

(** A page whose loading indicator is shown for the first two seconds
    and then gone, and whose button is labelled "Show 24 venues". *)
Definition loading_page : Page :=
  Samples.page_of
    (fun t l =>
       match l with
       | getByText _ =>
           if (t <? 2000)%Z then [Samples.element true "Loading venues..." ""]
           else []
       | _ => [Samples.element true "Show 24 venues" ""]
       end)
    1200 [Samples.entry] 375.

(** A page with two links that match [/dining/i]: the first one leads
    to "/dining", the second one to another site. *)
Definition two_dining_links_page : Page :=
  Samples.page_of
    (fun _ l =>
       if bool_decide (l = getByRole "link" (Regex "dining" "i"))
       then [ Samples.element true "Dining" "/dining";
              Samples.element true "Dining guide" "https://guide.example/dining" ]
       else [Samples.element true "Join now" "/join"])
    1200 [Samples.entry] 375.

(** A page whose join-now link is labelled "Join now" and whose other
    elements are labelled "Dining". *)
Definition labelled_page : Page :=
  Samples.page_of
    (fun _ l =>
       if bool_decide (l = getByRole "link" (Regex "join now" "i"))
       then [Samples.element true "Join now" "/join"]
       else [Samples.element true "Dining" "/dining"])
    1200 [Samples.entry] 375.

(** Only what is labelled "Join now" is shown. *)
Definition only_join_shown (t : Z) (e : Element) : bool :=
  bool_decide (el_textContent e = Some "Join now").

End Vocabulary.

(** ** How the primitives return *)

Module Facts.

Import Config Playwright MapPage Spec.
Open Scope test_scope.

Lemma truthy_option_string (o : option string) :
  truthy o = true <-> exists s, o = Some s /\ s <> "".
Proof.
  split.
  - destruct o as [[|c s]|]; cbn; try discriminate.
    intros _. exists (String c s). split; [reflexivity | discriminate].
  - intros (s & -> & Hs). destruct s; [contradiction | reflexivity].
Qed.

Lemma bind_Returned {A B : Type} (m : Test A) (k : A -> Test B) w b w' :
  bind m k w = (Returned b, w') ->
  exists a w1, m w = (Returned a, w1) /\ k a w1 = (Returned b, w').
Proof.
  unfold bind. destruct (m w) as [[a|e] w1]; [eauto | discriminate].
Qed.

Lemma ret_Returned {A : Type} (a b : A) w w' :
  ret a w = (Returned b, w') -> b = a /\ w' = w.
Proof. unfold ret. intros [= -> ->]. auto. Qed.

Lemma poll_Settled check fuel : forall t t',
  poll check t fuel = Settled t' ->
  t <= t' <= t + Z.of_nat fuel /\ check t' = Holds.
Proof.
  induction fuel as [|fuel IH]; intros t t'; cbn [poll];
    destruct (check t) eqn:Hc; try discriminate.
  - intros [= <-]. split; [lia | assumption].
  - intros [= <-]. split; [lia | assumption].
  - intros H. apply IH in H. split; [lia | tauto].
Qed.

Lemma retry_Returned api check timeout w u w' :
  retry api check timeout w = (Returned u, w') ->
  exists t', within check (now w) timeout t' /\ w' = at_time t' w.
Proof.
  unfold retry.
  destruct (poll check (now w) (N.to_nat timeout)) as [t'|t'|] eqn:Hp;
    try discriminate.
  intros [= _ <-]. exists t'. split; [|reflexivity].
  apply poll_Settled in Hp. rewrite N_nat_Z in Hp. exact Hp.
Qed.

Lemma the_element_Holds ready els :
  the_element ready els = Holds <-> exists e, els = [e] /\ ready e = true.
Proof.
  split.
  - destruct els as [|e [|e' els]]; cbn; try discriminate.
    destruct (ready e) eqn:Hr; [eauto | discriminate].
  - intros (e & -> & Hr). cbn. now rewrite Hr.
Qed.

Lemma expect_Returned matcher pass w u w' :
  expect matcher pass w = (Returned u, w') -> pass = true /\ w' = w.
Proof. unfold expect. destruct pass; cbn; intros [= _ <-]; auto. Qed.

Lemma Qltb_lt x y : Qltb x y = true <-> (x < y)%Q.
Proof.
  unfold Qltb. rewrite negb_true_iff, <- not_true_iff_false, Qle_bool_iff.
  split; [apply Qnot_le_lt | apply Qlt_not_le].
Qed.

Lemma of_Z_lt z (k : Z) : (of_Z z < inject_Z k)%Q <-> z < k.
Proof. unfold of_Z. now rewrite <- Zlt_Qlt. Qed.

Lemma reach_Returned api after w u w' :
  reach api after w = (Returned u, w') ->
  exists d, after = Some d /\ (d <= test_timeout)%N /\
            w' = at_time (now w + Z.of_N d) w.
Proof.
  unfold reach. destruct after as [d|]; [|discriminate].
  destruct (d <=? test_timeout)%N eqn:Hd; [|discriminate].
  intros [= _ <-]. exists d. apply N.leb_le in Hd. auto.
Qed.

Lemma element_Returned api page l w e w' :
  element api page l w = (Returned e, w') ->
  resolve page (now w) l = [e] /\ w' = w.
Proof.
  unfold element. destruct (resolve page (now w) l) as [|e0 [|e1 els]];
    try discriminate.
  intros [= -> ->]. auto.
Qed.

Lemma passes_Returned (body : Test unit) t0 :
  passes body t0 -> exists w', body (start t0) = (Returned tt, w').
Proof.
  unfold passes, run. destruct (body (start t0)) as [o w'] eqn:Hb. cbn.
  intros ->. eauto.
Qed.

Lemma goto_Returned page url waitUntil w u w' :
  goto page url waitUntil w = (Returned u, w') ->
  exists d, navigation page (now w) url waitUntil = Some d /\
            w' = at_time (now w + Z.of_N d) w.
Proof.
  unfold goto. intros H. apply reach_Returned in H as (d & H1 & _ & H2). eauto.
Qed.

Lemma waitForLoadState_Returned page state w u w' :
  waitForLoadState page state w = (Returned u, w') ->
  exists d, loadState page (now w) state = Some d /\
            w' = at_time (now w + Z.of_N d) w.
Proof.
  unfold waitForLoadState. intros H.
  apply reach_Returned in H as (d & H1 & _ & H2). eauto.
Qed.

Lemma count_Returned page l w n w' :
  count page l w = (Returned n, w') ->
  n = N.of_nat (length (resolve page (now w) l)) /\ w' = w.
Proof. unfold count. intros [= <- <-]. auto. Qed.

Lemma Date_now_Returned w t w' :
  Date_now w = (Returned t, w') -> t = now w /\ w' = w.
Proof. unfold Date_now. intros [= <- <-]. auto. Qed.

Lemma waitForTimeout_Returned ms w u w' :
  waitForTimeout ms w = (Returned u, w') -> w' = at_time (now w + Z.of_N ms) w.
Proof. unfold waitForTimeout. intros [= _ <-]. reflexivity. Qed.

Lemma read_Returned {A : Type} api page l (f : Element -> A) w a w' :
  (retry api (attached page l) test_timeout ;;
   e <- element api page l ;; ret (f e)) w = (Returned a, w') ->
  exists t' e, reads page l (now w) t' e /\ a = f e /\ w' = at_time t' w.
Proof.
  intros H.
  apply bind_Returned in H as (u & w1 & H1 & H).
  apply bind_Returned in H as (e & w2 & H2 & H).
  apply retry_Returned in H1 as (t' & [Ht _] & ->).
  apply element_Returned in H2 as [He ->].
  apply ret_Returned in H as [-> ->].
  exists t', e. split; [split; assumption | auto].
Qed.

Lemma now_at_time t w : now (at_time t w) = t.
Proof. reflexivity. Qed.

Lemma at_time_at_time t t' w : at_time t' (at_time t w) = at_time t' w.
Proof. reflexivity. Qed.

Lemma now_start t0 : now (start t0) = t0.
Proof. reflexivity. Qed.

Lemma of_Z_ltb z (k : Z) : Qltb (of_Z z) (inject_Z k) = true <-> z < k.
Proof. rewrite Qltb_lt. apply of_Z_lt. Qed.

Lemma of_Z_gt0 z : Qltb 0 (of_Z z) = true <-> 0 < z.
Proof. rewrite Qltb_lt. unfold of_Z. now rewrite (Zlt_Qlt 0 z). Qed.

Lemma of_N_gt0 n : Qltb 0 (of_N n) = true <-> (0 < n)%N.
Proof. unfold of_N. rewrite (of_Z_gt0 (Z.of_N n)). lia. Qed.

Lemma of_N_ge1 n : Qle_bool 1 (of_N n) = true <-> (1 <= n)%N.
Proof.
  unfold of_N. rewrite Qle_bool_iff.
  change 1%Q with (inject_Z 1). rewrite <- Zle_Qle. lia.
Qed.


Lemma attached_Holds page l t :
  attached page l t = Holds <-> exists e, resolve page t l = [e].
Proof.
  unfold attached. rewrite the_element_Holds. split.
  - intros (e & He & _). eauto.
  - intros (e & He). eauto.
Qed.

Lemma actionable_Holds page l t :
  actionable page l t = Holds <->
  exists e, resolve page t l = [e] /\ el_visible e = true /\ el_enabled e = true.
Proof.
  unfold actionable. rewrite the_element_Holds.
  split; intros (e & He & H); exists e; (split; [exact He|]).
  - now apply andb_true_iff.
  - now apply andb_true_iff.
Qed.

Lemma hidden_Holds page l t :
  hidden page l t = Holds <->
  resolve page t l = [] \/
  exists e, resolve page t l = [e] /\ el_visible e = false.
Proof.
  unfold hidden. destruct (resolve page t l) as [|e [|e' els]].
  - split; auto.
  - destruct (el_visible e) eqn:Hv; split.
    + discriminate.
    + intros [[=]|(e0 & [= <-] & H)]. congruence.
    + intros _. right. eauto.
    + reflexivity.
  - split; [discriminate|]. intros [[=]|(e0 & [=] & _)].
Qed.

(** [first] resolves to one element at most. *)
Lemma resolve_first page t l : (length (resolve page t (first l)) <= 1)%nat.
Proof. cbn [resolve]. rewrite length_take. lia. Qed.

(** [count() > 0]: the locator matches something. *)
Lemma matched_nonempty {A : Type} (els : list A) :
  (0 <? N.of_nat (length els))%N = true <-> els <> [].
Proof.
  rewrite N.ltb_lt. destruct els; cbn; split; try lia; try congruence.
Qed.

End Facts.

(** Unfolding a body that returned, one [await] at a time. *)
Ltac returned H :=
  first
    [ apply Facts.goto_Returned in H as (? & ? & ->)
    | apply Facts.waitForLoadState_Returned in H as (? & ? & ->)
    | apply Facts.waitForTimeout_Returned in H as ->
    | apply Facts.count_Returned in H as [-> ->]
    | apply Facts.Date_now_Returned in H as [-> ->]
    | apply Facts.retry_Returned in H as (? & ? & ->)
    | apply Facts.expect_Returned in H as [? ->]
    | apply Facts.read_Returned in H as (? & ? & ? & -> & ->)
    | apply Facts.ret_Returned in H as [-> ->]
    | idtac ];
  rewrite ?Facts.now_at_time, ?Facts.at_time_at_time, ?Facts.now_start in *.

Ltac await H :=
  let a := fresh "a" in
  let w := fresh "w" in
  let H1 := fresh "H" in
  apply Facts.bind_Returned in H as (a & w & H1 & H);
  returned H1.

(** ** Core elements *)

Module CoreElements.

Import Config Playwright MapPage Spec Facts.

(** C3, as the code has it: the scenario passes only if, after the
    navigation to "/map", the header is visible within the default
    expect timeout, then the map surface within 15000 ms, then at least
    one category-filter button is matched (counted once, with no
    timeout and no look at its visibility), then the join link is
    visible within the default expect timeout. *)
Theorem core_elements_pass_only_if page t0 :
  passes (should_load_page_with_all_core_UI_elements_visible page) t0 ->
  exists d t_header t_map t_join,
    navigation page t0 "/map" load = Some d /\
    within (visible page header) (t0 + Z.of_N d) expect_timeout t_header /\
    within (visible page mapSurface) t_header 15000 t_map /\
    (1 <= length (resolve page t_map filters))%nat /\
    within (visible page joinCTA) t_map expect_timeout t_join.
Proof.
  intros H. apply passes_Returned in H as [w' H].
  unfold should_load_page_with_all_core_UI_elements_visible in H.
  cbv zeta in H.
  await H. await H. await H. await H. await H. returned H.
  apply of_N_ge1 in H3.
  unfold filters. eexists _, _, _, _.
  split; [exact H0|]. split; [exact H1|]. split; [exact H2|].
  split; [lia | exact H].
Qed.

Lemma core_elements_pass_only_if_witness :
  passes (should_load_page_with_all_core_UI_elements_visible Samples.plain_page) 0 /\
  exists d t_header t_map t_join,
    navigation Samples.plain_page 0 "/map" load = Some d /\
    within (visible Samples.plain_page header) (0 + Z.of_N d) expect_timeout t_header /\
    within (visible Samples.plain_page mapSurface) t_header 15000 t_map /\
    (1 <= length (resolve Samples.plain_page t_map filters))%nat /\
    within (visible Samples.plain_page joinCTA) t_map expect_timeout t_join.
Proof.
  split; [vm_compute; reflexivity|].
  apply (core_elements_pass_only_if Samples.plain_page 0). vm_compute. reflexivity.
Defined.

(** C3, as it is stated, fails: the scenario passes on a page none of
    whose category-filter controls is ever visible. *)
Lemma core_elements_filter_not_visible :
  passes (should_load_page_with_all_core_UI_elements_visible Samples.collapsed_filters_page) 0 /\
  forall t e, In e (resolve Samples.collapsed_filters_page t filters) -> el_visible e = false.
Proof.
  split; [vm_compute; reflexivity|].
  intros t e [<-|[]]. reflexivity.
Qed.

End CoreElements.

(** ** Load performance *)

Module LoadPerformance.

Import Config Playwright MapPage Spec Facts.

(** C1, as the code has it: the scenario passes only if the navigation
    reaches DOM-content-loaded less than 8000 ms after it was issued,
    the map canvas is attached within its 15000 ms timeout and less
    than 15000 ms after the navigation was issued, and the navigation
    timing entry of that page has responseStart - requestStart below
    2000 ms: the time to first byte is taken from the start of the
    request, not from the start of the navigation. *)
Theorem load_performance_pass_only_if page t0 :
  passes (should_load_within_acceptable_performance_thresholds page) t0 ->
  exists d t_map entry rest,
    navigation page t0 "/map" domcontentloaded = Some d /\
    Z.of_N d < 8000 /\
    within (attached page canvas) (t0 + Z.of_N d) 15000 t_map /\
    t_map - t0 < 15000 /\
    navigationEntries page t_map = entry :: rest /\
    (responseStart entry - requestStart entry < 2000)%Q.
Proof.
  intros H. apply passes_Returned in H as [w' H].
  unfold should_load_within_acceptable_performance_thresholds in H.
  cbv zeta in H.
  do 8 (await H).
  unfold evaluate, performanceMetrics in H4. cbn [now at_time] in H4.
  destruct (navigationEntries page x0) as [|entry rest] eqn:He;
    [discriminate|].
  injection H4 as <- <-. returned H. cbn [ttfb] in H.
  apply (of_Z_ltb _ 8000) in H1. apply (of_Z_ltb _ 15000) in H3.
  apply Qltb_lt in H.
  exists x, x0, entry, rest.
  split; [exact H0|]. split; [lia|]. split; [exact H2|].
  split; [lia|]. split; [exact He | exact H].
Qed.

Lemma load_performance_pass_only_if_witness :
  passes (should_load_within_acceptable_performance_thresholds Samples.plain_page) 0 /\
  exists d t_map entry rest,
    navigation Samples.plain_page 0 "/map" domcontentloaded = Some d /\
    Z.of_N d < 8000 /\
    within (attached Samples.plain_page canvas) (0 + Z.of_N d) 15000 t_map /\
    t_map - 0 < 15000 /\
    navigationEntries Samples.plain_page t_map = entry :: rest /\
    (responseStart entry - requestStart entry < 2000)%Q.
Proof.
  split; [vm_compute; reflexivity|].
  apply (load_performance_pass_only_if Samples.plain_page 0). vm_compute. reflexivity.
Defined.

(** C1, as it is stated, fails: the scenario passes on a page whose
    first byte arrives 2100 ms after the navigation started. *)
Lemma load_performance_ttfb_from_request_start :
  passes (should_load_within_acceptable_performance_thresholds Samples.late_request_page) 0 /\
  forall t, exists entry,
    navigationEntries Samples.late_request_page t = [entry] /\
    ~ (responseStart entry - startTime entry < 2000)%Q.
Proof.
  split; [vm_compute; reflexivity|].
  intros t. exists Samples.late_request. split; [reflexivity|].
  vm_compute. discriminate.
Qed.

(** *** The load-complete time *)

Lemma bind_ext {A B : Type} (m : Test A) (k k' : A -> Test B) w :
  (forall a w', k a w' = k' a w') -> bind m k w = bind m k' w.
Proof.
  intros Hk. unfold bind. destruct (m w) as [[a|e] w']; [apply Hk | reflexivity].
Qed.

(** C10: the value of [loadEventEnd], and so [loadComplete], has no
    part in the outcome of the scenario. *)
Theorem load_complete_not_asserted page v t0 :
  run (should_load_within_acceptable_performance_thresholds
         (with_loadEventEnd v page)) t0 =
  run (should_load_within_acceptable_performance_thresholds page) t0.
Proof.
  unfold run, should_load_within_acceptable_performance_thresholds.
  cbv zeta. generalize (start t0). intros w.
  do 7 (refine (bind_ext _ _ _ _ _); intros ? ?).
  unfold bind, evaluate, performanceMetrics.
  cbn [navigationEntries with_loadEventEnd].
  destruct (navigationEntries page _) as [|e rest]; reflexivity.
Qed.

(** [loadComplete] is computed, from the first navigation entry. *)
Lemma loadComplete_computed page t entry rest :
  navigationEntries page t = entry :: rest ->
  exists m, performanceMetrics page t = Returned m /\
            loadComplete m = (loadEventEnd entry - startTime entry)%Q.
Proof. unfold performanceMetrics. intros ->. eexists. split; reflexivity. Qed.

End LoadPerformance.

(** ** Loops *)

Module Loops.

Import Playwright MapPage Spec Facts.

(** A loop that returned ran its body on every item, in order and
    without going back in time. *)
Lemma for_of_Returned {A : Type} (P : A -> Z -> Z -> Prop) (body : A -> Test unit) :
  (forall x w u w',
     body x w = (Returned u, w') -> P x (now w) (now w') /\ now w <= now w') ->
  forall xs w u w',
    for_of xs body w = (Returned u, w') ->
    Forall (fun x => exists t t', now w <= t /\ P x t t' /\ t' <= now w') xs /\
    now w <= now w'.
Proof.
  intros Hbody. induction xs as [|x xs IH]; intros w u w' H; cbn [for_of] in H.
  - apply ret_Returned in H as [_ ->]. split; [constructor | lia].
  - apply bind_Returned in H as (a & w1 & H1 & H).
    apply Hbody in H1 as [HP Hle]. apply IH in H as [Hall Hle'].
    split; [|lia]. constructor.
    + exists (now w), (now w1). split; [lia|]. split; [exact HP | exact Hle'].
    + eapply Forall_impl; [exact Hall|]. cbn.
      intros y (t & t' & Ht & HPy & Ht'). exists t, t'.
      split; [lia|]. split; [exact HPy | exact Ht'].
Qed.

End Loops.

(** ** Navigation links *)

Module NavigationLinks.

Import Config Playwright MapPage Spec Facts.

Lemma toMatch_leading_slash_Returned received w u w' :
  toMatch_leading_slash received w = (Returned u, w') ->
  exists rest, received = Some (String "/" rest) /\ w' = w.
Proof.
  unfold toMatch_leading_slash. intros H. apply expect_Returned in H as [H ->].
  destruct received as [[|c rest]|]; try discriminate.
  apply bool_decide_eq_true in H. subst c. eauto.
Qed.

Lemma turn_Returned page navItem w u w' :
  (let link := first (getByRole "link" (name navItem)) in
   toBeAttached page link expect_timeout ;;
   href <- getAttribute page link "href" ;;
   toBeTruthy href ;;
   toMatch_leading_slash href)%test w = (Returned u, w') ->
  link_checked page navItem (now w) (now w') /\ now w <= now w'.
Proof.
  cbv zeta. intros H. await H. await H. await H.
  apply toMatch_leading_slash_Returned in H as (rest & Hrest & ->).
  apply truthy_option_string in H2 as (href & Hh & Hne).
  rewrite now_at_time. split.
  - exists x, x1, href, rest. split; [exact H0|]. split; [exact H1|].
    split; [exact Hh|]. split; [exact Hne | congruence].
  - destruct H0 as [? _], H1 as [? _]. lia.
Qed.

(** The four expected items, by accessible-name pattern. *)
Lemma expectedNavItems_names :
  List.map name expectedNavItems =
  [ Regex "pool.*beach" "i"; Regex "gym|fitness" "i";
    Regex "family" "i"; Regex "dining" "i" ].
Proof. reflexivity. Qed.

End NavigationLinks.

(** ** Filter toggling *)

Module FilterToggling.

Import Config Playwright MapPage Spec Facts.

Lemma not_toEqual_Returned received expected w :
  fst (not_toEqual received expected w) = Returned tt <-> received <> expected.
Proof.
  unfold not_toEqual, expect.
  destruct (bool_decide (received = expected)) eqn:Hd; cbn.
  - apply bool_decide_eq_true in Hd. split; [discriminate | contradiction].
  - apply bool_decide_eq_false in Hd. split; [auto | reflexivity].
Qed.

Lemma not_toEqual_Thrown received expected w :
  fst (not_toEqual received expected w) = Thrown (AssertionError "not.toEqual")
  <-> received = expected.
Proof.
  unfold not_toEqual, expect.
  destruct (bool_decide (received = expected)) eqn:Hd; cbn.
  - apply bool_decide_eq_true in Hd. split; [auto | reflexivity].
  - apply bool_decide_eq_false in Hd. split; [discriminate | contradiction].
Qed.

(** C4: when the body has read both texts, they are the text of the
    venue heading at least a second after the click on "Pool & beach"
    and its text at least a second after the later click on "Fitness",
    on the same page; the scenario then passes exactly when the two
    differ and fails, on its last expectation, exactly when they are
    equal. *)
Theorem filter_toggling_fails_iff_texts_equal page t0 initialText updatedText w :
  run (venue_texts page) t0 = (Returned (initialText, updatedText), w) ->
  (exists t_pool t_initial e_initial t_fitness t_updated e_updated,
     actionable page poolFilter t_pool = Holds /\
     reads page venueHeading (t_pool + 1000) t_initial e_initial /\
     initialText = el_textContent e_initial /\
     t_initial <= t_fitness /\
     actionable page fitnessFilter t_fitness = Holds /\
     reads page venueHeading (t_fitness + 1000) t_updated e_updated /\
     updatedText = el_textContent e_updated) /\
  (passes (should_toggle_category_filters_and_update_venue_display page) t0
   <-> updatedText <> initialText) /\
  (fst (run (should_toggle_category_filters_and_update_venue_display page) t0)
   = Thrown (AssertionError "not.toEqual")
   <-> updatedText = initialText).
Proof.
  unfold run. intros H. split; [|split].
  - unfold venue_texts in H. cbv zeta in H.
    do 9 (await H). unfold ret in H. injection H as <- <- <-.
    change (Z.of_N 1000) with 1000 in *.
    destruct H3 as [_ Hpool], H5 as [[Hle _] Hfitness].
    exists x1, x2, x3, x4, x5, x6. auto 10.
  - unfold passes, run, should_toggle_category_filters_and_update_venue_display.
    unfold bind at 1. rewrite H. apply not_toEqual_Returned.
  - unfold should_toggle_category_filters_and_update_venue_display.
    unfold bind at 1. rewrite H. apply not_toEqual_Thrown.
Qed.

Lemma filter_toggling_fails_iff_texts_equal_witness :
  run (venue_texts Samples.toggling_page) 0 =
    (Returned (Some "24 venues", Some "9 venues"), at_time 3600 (start 0)) /\
  (passes (should_toggle_category_filters_and_update_venue_display Samples.toggling_page) 0
   <-> Some "9 venues" <> Some "24 venues") /\
  (fst (run (should_toggle_category_filters_and_update_venue_display Samples.toggling_page) 0)
   = Thrown (AssertionError "not.toEqual")
   <-> Some "9 venues" = Some "24 venues").
Proof.
  split; [vm_compute; reflexivity|].
  refine (proj2 (filter_toggling_fails_iff_texts_equal Samples.toggling_page 0
                   (Some "24 venues") (Some "9 venues")
                   (at_time 3600 (start 0)) _)).
  vm_compute. reflexivity.
Defined.

End FilterToggling.

(** ** The run configuration *)

Module RunConfiguration.

Import Config Spec Facts.

Lemma CI_set_truthy (env : gmap string string) :
  truthy (env !! "CI") = true <-> CI_set env.
Proof. apply truthy_option_string. Qed.

(** C5: [forbidOnly] is on exactly when the flag is set; with the flag
    set there is one retry and one worker; without it there is no
    retry and [workers] is left undefined, the runner's own default. *)
Theorem config_follows_CI devices (env : gmap string string) :
  (forbidOnly (config devices env) = true <-> CI_set env) /\
  (CI_set env ->
     retries (config devices env) = 1%N /\
     workers (config devices env) = Some 1%N) /\
  (~ CI_set env ->
     retries (config devices env) = 0%N /\
     workers (config devices env) = None).
Proof.
  rewrite <- CI_set_truthy. cbn [config forbidOnly retries workers].
  destruct (truthy (env !! "CI")); cbn.
  - split; [tauto|]. split; [auto | intros []; reflexivity].
  - split; [tauto|]. split; [discriminate | auto].
Qed.

(** What counts as set: any non-empty value, "false" and "0" too; an
    empty value does not. *)
Example CI_true devices :
  let c := config devices {[ "CI" := "true" ]} in
  forbidOnly c = true /\ retries c = 1%N /\ workers c = Some 1%N.
Proof. vm_compute. auto. Qed.

Example CI_false_string devices :
  let c := config devices {[ "CI" := "false" ]} in
  forbidOnly c = true /\ retries c = 1%N /\ workers c = Some 1%N.
Proof. vm_compute. auto. Qed.

Example CI_empty devices :
  let c := config devices {[ "CI" := "" ]} in
  forbidOnly c = false /\ retries c = 0%N /\ workers c = None.
Proof. vm_compute. auto. Qed.

Example CI_unset devices :
  let c := config devices ∅ in
  forbidOnly c = false /\ retries c = 0%N /\ workers c = None.
Proof. vm_compute. auto. Qed.

End RunConfiguration.

(** ** Venue data *)

Module VenueData.

Import Config Playwright MapPage Spec Facts.

(** *** The number in the label *)

Lemma all_digits_digits s : all_digits (digits s) = true.
Proof.
  induction s as [|c s IH]; cbn; [reflexivity|].
  destruct (is_digit c) eqn:Hc; cbn; [|reflexivity]. now rewrite Hc.
Qed.

Lemma digits_all_digits s : all_digits s = true -> digits s = s.
Proof.
  induction s as [|c s IH]; cbn; [reflexivity|].
  intros [Hc Hs]%andb_true_iff. rewrite Hc, IH by exact Hs. reflexivity.
Qed.

(** What [match_digits] finds begins with a digit and has only digits. *)
Lemma match_digits_Some s group1 :
  match_digits s = Some group1 ->
  exists c rest, group1 = String c rest /\ is_digit c = true /\
                 all_digits group1 = true.
Proof.
  induction s as [|c s IH]; cbn [match_digits]; [discriminate|].
  destruct (is_digit c) eqn:Hc; [|exact IH].
  intros [= <-]. cbn [digits]. rewrite Hc.
  exists c, (digits s). split; [reflexivity|]. split; [exact Hc|].
  cbn. rewrite Hc. apply all_digits_digits.
Qed.

Lemma decimal_nonneg s : forall acc,
  all_digits s = true -> 0 <= acc -> 0 <= decimal acc s.
Proof.
  induction s as [|c s IH]; intros acc; cbn [decimal all_digits]; [auto|].
  intros [Hc Hs]%andb_true_iff Hacc. apply IH; [exact Hs|].
  unfold is_digit in Hc. apply andb_true_iff in Hc as [Hlo _].
  apply Nat.leb_le in Hlo. lia.
Qed.

Lemma digit_leads c :
  is_digit c = true -> is_space c = false /\ c <> "-"%char /\ c <> "+"%char.
Proof.
  intros Hc. split; [|split].
  - unfold is_digit in Hc. unfold is_space.
    apply andb_true_iff in Hc as [Hlo Hhi]. apply Nat.leb_le in Hlo, Hhi.
    apply orb_false_iff. split.
    + apply andb_false_iff. right. apply Nat.leb_gt. lia.
    + apply Nat.eqb_neq. lia.
  - intros ->. discriminate Hc.
  - intros ->. discriminate Hc.
Qed.

(** [parseInt] of what [match_digits] finds is never [NaN]: it is the
    decimal value of the digits, a natural number. *)
Lemma parseInt_match_digits s group1 :
  match_digits s = Some group1 ->
  parseInt group1 = Some (decimal 0 group1) /\ 0 <= decimal 0 group1.
Proof.
  intros (c & rest & -> & Hc & Hall)%match_digits_Some.
  split; [|apply decimal_nonneg; [exact Hall | lia]].
  destruct (digit_leads c Hc) as (Hspace & Hminus & Hplus).
  unfold parseInt. cbn [trimStart]. rewrite Hspace.
  assert (Hsign :
    match String c rest with
    | String "-" s' => (-1, s')
    | String "+" s' => (1, s')
    | _ => (1, String c rest)
    end = (1, String c rest)).
  { destruct c as [[] [] [] [] [] [] [] []]; try reflexivity; congruence. }
  rewrite Hsign. rewrite (digits_all_digits _ Hall).
  f_equal. lia.
Qed.

Example label_24 : match_digits "Show 24 venues" = Some "24" /\ parseInt "24" = Some 24.
Proof. split; reflexivity. Qed.

Example label_0 : match_digits "Show 0 venues" = Some "0" /\ parseInt "0" = Some 0.
Proof. split; reflexivity. Qed.

Example label_none : match_digits "Show venues" = None.
Proof. reflexivity. Qed.

(** The optional wait for the loading indicator. *)
Lemma loading_step page w u w' :
  (if (0 <? N.of_nat (length (resolve page (now w) loadingText)))%N
   then toBeHidden page loadingText 15000 else ret tt) w
  = (Returned u, w') ->
  now w <= now w' /\
  (resolve page (now w) loadingText <> [] ->
   within (hidden page loadingText) (now w) 15000 (now w')).
Proof.
  intros H.
  destruct (0 <? _)%N eqn:Hn.
  - unfold toBeHidden in H. returned H. split; [destruct H; lia | auto].
  - returned H. split; [lia|]. intros Hne. apply matched_nonempty in Hne.
    congruence.
Qed.

(** The optional look at the label of the "show venues" button. *)
Lemma button_step page w u w' :
  (if (0 <? N.of_nat (length (resolve page (now w) showVenuesBtn)))%N then
     btnText <- textContent page showVenuesBtn ;;
     let match_ := match btnText with Some s => match_digits s | None => None end in
     match match_ with
     | Some group1 =>
         match parseInt group1 with
         | Some venueCount => toBeGreaterThan (of_Z venueCount) 0
         | None => throw (AssertionError "toBeGreaterThan")
         end
     | None => ret tt
     end
   else ret tt)%test w
  = (Returned u, w') ->
  now w <= now w' /\
  (resolve page (now w) showVenuesBtn <> [] ->
   exists e,
     reads page showVenuesBtn (now w) (now w') e /\
     forall text group1,
       el_textContent e = Some text ->
       match_digits text = Some group1 ->
       exists venueCount, parseInt group1 = Some venueCount /\ 0 < venueCount).
Proof.
  intros H.
  destruct (0 <? _)%N eqn:Hn.
  - cbv zeta in H. await H.
    assert (Hw : now w' = x).
    { destruct (el_textContent x0) as [text|]; [|now returned H].
      destruct (match_digits text) as [group1|]; [|now returned H].
      destruct (parseInt group1); [|discriminate].
      unfold toBeGreaterThan in H. now returned H. }
    rewrite Hw. split; [destruct H0; lia|]. intros _.
    exists x0. split; [exact H0|].
    intros text group1 Ht Hg. rewrite Ht, Hg in H.
    destruct (parseInt group1) as [venueCount|]; [|discriminate].
    exists venueCount. split; [reflexivity|].
    unfold toBeGreaterThan in H. returned H. now apply of_Z_gt0.
  - returned H. split; [lia|]. intros Hne. apply matched_nonempty in Hne.
    congruence.
Qed.

End VenueData.

(** ** Map interactivity *)

Module MapInteractive.

Import Config Playwright MapPage Spec Facts.

(** C7: the scenario passes only if the map container is visible
    within 15000 ms and the canvas attached; then, when the page has a
    zoom-in control, the click on it and, half a second later, the
    click on the zoom-out control both find their control actionable;
    and when it has none, the canvas has a bounding box whose width and
    height are positive. *)
Theorem map_interactive_pass_only_if page t0 :
  passes (should_render_interactive_Mapbox_map page) t0 ->
  exists d t_map t_canvas,
    navigation page t0 "/map" load = Some d /\
    within (visible page mapContainer) (t0 + Z.of_N d) 15000 t_map /\
    within (attached page canvas) t_map expect_timeout t_canvas /\
    (resolve page t_canvas zoomIn <> [] ->
       exists t_in t_out,
         within (actionable page zoomIn) t_canvas test_timeout t_in /\
         within (actionable page zoomOut) (t_in + 500) test_timeout t_out) /\
    (resolve page t_canvas zoomIn = [] ->
       exists t_box e b,
         reads page canvas t_canvas t_box e /\
         el_boundingBox e = Some b /\
         (0 < box_width b)%Q /\
         (0 < box_height b)%Q).
Proof.
  intros H. apply passes_Returned in H as [w' H].
  unfold should_render_interactive_Mapbox_map in H. cbv zeta in H.
  await H. await H. await H. await H.
  exists x, x0, x1.
  split; [exact H0|]. split; [exact H1|]. split; [exact H2|].
  destruct (0 <? _)%N eqn:Hn.
  - split.
    + intros _. unfold click in H. await H. await H. returned H.
      eauto.
    + intros Hnil. fold zoomIn in Hn. rewrite Hnil in Hn. discriminate.
  - split.
    + intros Hne. apply matched_nonempty in Hne.
      fold zoomIn in Hn. congruence.
    + intros _. await H. await H.
      destruct (el_boundingBox x3) as [b|] eqn:Hb; [|discriminate].
      unfold toBeGreaterThan in H. await H. returned H.
      apply Qltb_lt in H5, H. exists x2, x3, b. auto.
Qed.

Lemma map_interactive_pass_only_if_witness :
  passes (should_render_interactive_Mapbox_map Samples.plain_page) 0 /\
  exists d t_map t_canvas,
    navigation Samples.plain_page 0 "/map" load = Some d /\
    within (visible Samples.plain_page mapContainer) (0 + Z.of_N d) 15000 t_map /\
    within (attached Samples.plain_page canvas) t_map expect_timeout t_canvas /\
    (resolve Samples.plain_page t_canvas zoomIn <> [] ->
       exists t_in t_out,
         within (actionable Samples.plain_page zoomIn) t_canvas test_timeout t_in /\
         within (actionable Samples.plain_page zoomOut) (t_in + 500) test_timeout t_out) /\
    (resolve Samples.plain_page t_canvas zoomIn = [] ->
       exists t_box e b,
         reads Samples.plain_page canvas t_canvas t_box e /\
         el_boundingBox e = Some b /\
         (0 < box_width b)%Q /\
         (0 < box_height b)%Q).
Proof.
  split; [vm_compute; reflexivity|].
  apply (map_interactive_pass_only_if Samples.plain_page 0). vm_compute. reflexivity.
Defined.

End MapInteractive.

(** ** Mobile viewport *)

Module MobileViewport.

Import Config Playwright MapPage Spec Facts.

(** C8: the page of the scenario belongs to a context of 375 by 812
    with the user agent of a mobile browser, and the scenario passes
    only if, once the network is idle, a menu-toggle-like control is
    matched, then the map surface is visible within 15000 ms, then the
    document is not wider than the window. *)
Theorem mobile_viewport_pass_only_if browser t0 :
  passes (should_display_correctly_on_mobile_viewport browser) t0 ->
  viewport mobile = {| width := 375; height := 812 |} /\
  includes "Mobile" (userAgent mobile) = true /\
  exists d d_idle t_map,
    let page := site browser mobile in
    let t_idle := t0 + Z.of_N d + Z.of_N d_idle in
    navigation page t0 "/map" load = Some d /\
    loadState page (t0 + Z.of_N d) networkidle = Some d_idle /\
    resolve page t_idle menuToggle <> [] /\
    within (visible page mapSurface) t_idle 15000 t_map /\
    scrollWidth page t_map <= innerWidth page t_map.
Proof.
  intros H. split; [reflexivity|]. split; [vm_compute; reflexivity|].
  apply passes_Returned in H as [w' H].
  unfold should_display_correctly_on_mobile_viewport in H. cbv zeta in H.
  apply bind_Returned in H as (context & w1 & Hc & H).
  unfold newContext in Hc. injection Hc as <- <-.
  apply bind_Returned in H as (page & w2 & Hp & H).
  unfold newPage in Hp. apply ret_Returned in Hp as [-> ->].
  cbn [ctx_page now] in H.
  await H. await H. await H. await H. await H.
  apply bind_Returned in H as (overflow & w3 & He & H).
  unfold evaluate, hasHorizontalOverflow in He. injection He as <- <-.
  await H. cbn [now at_time] in *.
  exists x, x0, x1. cbv zeta.
  split; [exact H0|]. split; [exact H1|].
  split; [now apply matched_nonempty|].
  split; [exact H3|].
  unfold truthy, truthy_bool in H4. apply negb_true_iff in H4. lia.
Qed.

Lemma mobile_viewport_pass_only_if_witness :
  passes (should_display_correctly_on_mobile_viewport Samples.plain_browser) 0 /\
  viewport mobile = {| width := 375; height := 812 |} /\
  includes "Mobile" (userAgent mobile) = true /\
  exists d d_idle t_map,
    let page := site Samples.plain_browser mobile in
    let t_idle := 0 + Z.of_N d + Z.of_N d_idle in
    navigation page 0 "/map" load = Some d /\
    loadState page (0 + Z.of_N d) networkidle = Some d_idle /\
    resolve page t_idle menuToggle <> [] /\
    within (visible page mapSurface) t_idle 15000 t_map /\
    scrollWidth page t_map <= innerWidth page t_map.
Proof.
  split; [vm_compute; reflexivity|].
  apply (mobile_viewport_pass_only_if Samples.plain_browser 0). vm_compute. reflexivity.
Defined.

End MobileViewport.

(** ** Browser contexts left open *)

Module Contexts.

Import Config Playwright MapPage Spec Facts.

Lemma same_contexts_refl w : same_contexts w w.
Proof. split; reflexivity. Qed.

Lemma same_contexts_trans w1 w2 w3 :
  same_contexts w1 w2 -> same_contexts w2 w3 -> same_contexts w1 w3.
Proof. unfold same_contexts. intros [-> ->] [-> ->]. auto. Qed.

Lemma keeps_ret {A : Type} (a : A) : keeps_contexts (ret a).
Proof. intros w. apply same_contexts_refl. Qed.

Lemma keeps_throw {A : Type} e : keeps_contexts (@throw A e).
Proof. intros w. apply same_contexts_refl. Qed.

Lemma keeps_bind {A B : Type} (m : Test A) (k : A -> Test B) :
  keeps_contexts m -> (forall a, keeps_contexts (k a)) -> keeps_contexts (bind m k).
Proof.
  intros Hm Hk w. specialize (Hm w). unfold bind.
  destruct (m w) as [[a|e] w1]; cbn in *; [|exact Hm].
  eapply same_contexts_trans; [exact Hm | apply Hk].
Qed.

Lemma keeps_retry api check timeout : keeps_contexts (retry api check timeout).
Proof.
  intros w. unfold retry.
  destruct (poll check (now w) (N.to_nat timeout)); split; reflexivity.
Qed.

Lemma keeps_expect matcher pass : keeps_contexts (expect matcher pass).
Proof. intros w. unfold expect. destruct pass; apply same_contexts_refl. Qed.

Lemma keeps_reach api after : keeps_contexts (reach api after).
Proof.
  intros w. unfold reach. destruct after as [d|]; [|apply same_contexts_refl].
  destruct (d <=? test_timeout)%N; split; reflexivity.
Qed.

Lemma keeps_goto page url waitUntil : keeps_contexts (goto page url waitUntil).
Proof. intros w. apply keeps_reach. Qed.

Lemma keeps_waitForLoadState page state : keeps_contexts (waitForLoadState page state).
Proof. intros w. apply keeps_reach. Qed.

Lemma keeps_waitForTimeout ms : keeps_contexts (waitForTimeout ms).
Proof. intros w. split; reflexivity. Qed.

Lemma keeps_Date_now : keeps_contexts Date_now.
Proof. intros w. apply same_contexts_refl. Qed.

Lemma keeps_count page l : keeps_contexts (count page l).
Proof. intros w. apply same_contexts_refl. Qed.

Lemma keeps_evaluate {A : Type} page (f : Page -> Z -> Outcome A) :
  keeps_contexts (evaluate page f).
Proof. intros w. apply same_contexts_refl. Qed.

Lemma keeps_element api page l : keeps_contexts (element api page l).
Proof.
  intros w. unfold element.
  destruct (resolve page (now w) l) as [|e [|e' els]]; apply same_contexts_refl.
Qed.

Lemma keeps_for_of {A : Type} (xs : list A) (body : A -> Test unit) :
  (forall x, keeps_contexts (body x)) -> keeps_contexts (for_of xs body).
Proof.
  intros Hbody. induction xs as [|x xs IH]; cbn [for_of].
  - apply keeps_ret.
  - apply keeps_bind; [apply Hbody | intros _; exact IH].
Qed.

Create HintDb keeps discriminated.

#[local] Hint Resolve keeps_ret keeps_throw keeps_retry keeps_expect keeps_goto
  keeps_waitForLoadState keeps_waitForTimeout keeps_Date_now keeps_count
  keeps_evaluate keeps_element : keeps.

Ltac keeps :=
  repeat first
    [ progress auto with keeps
    | apply keeps_bind; [|intros ?]
    | apply keeps_for_of; intros ?
    | match goal with
      | |- keeps_contexts (if ?c then _ else _) => destruct c
      | |- keeps_contexts (match ?x with _ => _ end) => destruct x
      | |- keeps_contexts (let (_, _) := ?x in _) => destruct x
      end
    | progress unfold toBeVisible, toBeAttached, toBeHidden, click, textContent,
        getAttribute, boundingBox, toBeLessThan, toBeGreaterThan,
        toBeGreaterThanOrEqual, toBeTruthy, toBeFalsy, not_toEqual, not_toBeNull,
        toMatch_leading_slash ].

(** The scenarios that take the [page] fixture open no context. *)
Lemma page_tests_keep_contexts title body page :
  In (page_test title body) suite -> keeps_contexts (body page).
Proof.
  unfold suite. cbn [In]. intros H.
  repeat (destruct H as [H|H]; [injection H as <- <-|]).
  - unfold should_load_page_with_all_core_UI_elements_visible. cbv zeta. keeps.
  - unfold should_toggle_category_filters_and_update_venue_display, venue_texts.
    cbv zeta. keeps.
  - unfold should_render_interactive_Mapbox_map. cbv zeta. keeps.
  - unfold should_load_within_acceptable_performance_thresholds. cbv zeta. keeps.
  - unfold should_display_venue_data_after_loading. cbv zeta. keeps.
  - unfold should_have_correct_navigation_links_in_header. cbv zeta. keeps.
  - destruct H as [H|[]]. discriminate.
Qed.

(** One [await] of a body whose steps keep the contexts: it throws
    and the body is over, or it returns and the body goes on, with the
    same contexts open either way. *)
Lemma bind_keeps_cases {A B : Type} (m : Test A) (k : A -> Test B)
  (P : Outcome B * World -> Prop) w0 w :
  keeps_contexts m ->
  same_contexts w0 w ->
  (forall e w1, same_contexts w0 w1 -> P (Thrown e, w1)) ->
  (forall a w1, same_contexts w0 w1 -> P (k a w1)) ->
  P (bind m k w).
Proof.
  intros Hm Hw Hthrown Hreturned. specialize (Hm w). unfold bind.
  destruct (m w) as [[a|e] w1]; cbn in Hm.
  - apply Hreturned. eapply same_contexts_trans; eassumption.
  - apply Hthrown. eapply same_contexts_trans; eassumption.
Qed.

(** X17: the six scenarios that take the [page] fixture open no
    context of their own: whatever the site shows and however the run
    ends, no context is left open. *)
Lemma page_tests_leave_no_context title body :
  In (page_test title body) suite -> leaves_no_context (page_test title body).
Proof.
  intros Hin project browser t0. cbn [run_scenario]. unfold run.
  apply (page_tests_keep_contexts _ _ (site browser (device project))) in Hin.
  destruct (Hin (start t0)) as [-> _]. reflexivity.
Qed.

(** X13: the mobile scenario closes the context it opens when it
    passes, and only then: whatever the site shows, the context is
    still open at the end of every run that fails. *)
Lemma mobile_context_closed_iff_passes browser t0 :
  open_contexts (snd (run (should_display_correctly_on_mobile_viewport browser) t0)) = []
  <-> passes (should_display_correctly_on_mobile_viewport browser) t0.
Proof.
  unfold passes, run, should_display_correctly_on_mobile_viewport. cbv zeta.
  unfold bind at 1. cbn [newContext start now next_context open_contexts].
  unfold bind at 1. unfold newPage, ret at 1. cbn [ctx_page].
  set (w0 := {| now := t0; next_context := 1; open_contexts := [0%nat] |}).
  set (P := fun r : Outcome unit * World =>
              open_contexts (snd r) = [] <-> fst r = Returned tt).
  assert (Hthrown : forall e w1, same_contexts w0 w1 -> P (Thrown e, w1)).
  { intros e w1 [Hopen _]. unfold P. cbn. rewrite Hopen. cbn.
    split; discriminate. }
  change (P ((goto (site browser mobile) "/map" load ;;
              waitForLoadState (site browser mobile) networkidle ;;
              n <- count (site browser mobile) menuToggle ;;
              toBeTruthy (0 <? n)%N ;;
              toBeVisible (site browser mobile)
                (first (locator ".mapboxgl-map, .mapboxgl-canvas")) 15000 ;;
              overflow <- evaluate (site browser mobile) hasHorizontalOverflow ;;
              toBeFalsy overflow ;;
              close {| ctx_id := 0; ctx_options := mobile;
                       ctx_page := site browser mobile |})%test w0)).
  generalize (same_contexts_refl w0). generalize w0 at 2 3. intros w Hw.
  do 7 (apply (bind_keeps_cases _ _ P w0 w);
        [keeps | exact Hw | exact Hthrown | clear w Hw; intros ? w Hw]).
  destruct Hw as [Hopen _]. unfold P, close. cbn. rewrite Hopen. cbn.
  split; reflexivity.
Qed.

(** C9 does not hold of the code: on a page without a menu toggle the
    expectation on [menuVisible] throws, the body ends there, before
    [context.close()], and the context it opened is still open. *)
Theorem mobile_context_left_open :
  In (browser_test "should display correctly on mobile viewport"
        should_display_correctly_on_mobile_viewport) suite /\
  run (should_display_correctly_on_mobile_viewport Samples.no_menu_browser) 0 =
  (Thrown (AssertionError "toBeTruthy"),
   {| now := 1600; next_context := 1; open_contexts := [0%nat] |}).
Proof. split; [cbn; tauto | vm_compute; reflexivity]. Qed.

End Contexts.

(** ** How the waits end *)

Module Waits.

Import Config Playwright MapPage Spec Vocabulary Facts.

Lemma poll_Settled_first check fuel : forall t t',
  poll check t fuel = Settled t' <->
  (t <= t' <= t + Z.of_nat fuel /\ check t' = Holds) /\
  forall u, t <= u < t' -> check u = Pending.
Proof.
  induction fuel as [|fuel IH]; intros t t'; cbn [poll].
  - destruct (check t) eqn:Hc; split.
    + intros [= <-]. split; [split; [lia | exact Hc] | intros u Hu; lia].
    + intros [[Ht Hh] Hp]. assert (t' = t) as -> by lia. reflexivity.
    + discriminate.
    + intros [[Ht Hh] Hp]. assert (t' = t) by lia. congruence.
    + discriminate.
    + intros [[Ht Hh] Hp]. assert (t' = t) by lia. congruence.
  - destruct (check t) eqn:Hc.
    + split.
      * intros [= <-]. split; [split; [lia | exact Hc] | intros u Hu; lia].
      * intros [[Ht Hh] Hp]. destruct (Z.eq_dec t' t) as [->|Hne]; [reflexivity|].
        rewrite Hp in Hc by lia. discriminate.
    + rewrite IH. split.
      * intros [[Ht Hh] Hp]. split; [split; [lia | exact Hh]|].
        intros u Hu. destruct (Z.eq_dec u t) as [->|Hne]; [exact Hc|].
        apply Hp. lia.
      * intros [[Ht Hh] Hp]. assert (t' <> t) by congruence.
        split; [split; [lia | exact Hh]|]. intros u Hu. apply Hp. lia.
    + split; [discriminate|].
      intros [[Ht Hh] Hp]. destruct (Z.eq_dec t' t) as [->|Hne]; [congruence|].
      rewrite Hp in Hc by lia. discriminate.
Qed.

Lemma poll_ext check check' fuel : forall t,
  (forall u, check u = check' u) -> poll check t fuel = poll check' t fuel.
Proof.
  induction fuel as [|fuel IH]; intros t H; cbn [poll]; rewrite H.
  - reflexivity.
  - destruct (check' t); [reflexivity | | reflexivity]. apply IH, H.
Qed.

Lemma poll_never_Violated check fuel : forall t t',
  (forall u, check u <> Strict) -> poll check t fuel <> Violated t'.
Proof.
  induction fuel as [|fuel IH]; intros t t' H; cbn [poll];
    destruct (check t) eqn:Hc; try discriminate.
  - now apply H in Hc.
  - now apply IH.
  - now apply H in Hc.
Qed.

(** A wait returns exactly when its condition comes to hold within the
    timeout, and it returns at the first instant it holds. *)
Lemma retry_Returned_iff api check timeout w w' :
  retry api check timeout w = (Returned tt, w') <->
  exists t', first_within check (now w) timeout t' /\ w' = at_time t' w.
Proof.
  unfold retry, first_within, within.
  destruct (poll check (now w) (N.to_nat timeout)) as [t|t|] eqn:Hp.
  - apply poll_Settled_first in Hp. rewrite N_nat_Z in Hp. split.
    + intros [= <-]. eauto.
    + intros (t' & Hf & ->). f_equal. f_equal.
      destruct Hp as [[Ht Hh] Hb], Hf as [[Ht' Hh'] Hb'].
      destruct (Z.lt_trichotomy t t') as [Hlt|[Heq|Hgt]]; [|exact Heq|].
      * rewrite Hb' in Hh by lia. discriminate.
      * rewrite Hb in Hh' by lia. discriminate.
  - split; [discriminate|]. intros (t' & Hf & _).
    rewrite <- (N_nat_Z timeout) in Hf.
    apply poll_Settled_first in Hf. congruence.
  - split; [discriminate|]. intros (t' & Hf & _).
    rewrite <- (N_nat_Z timeout) in Hf.
    apply poll_Settled_first in Hf. congruence.
Qed.

Lemma retry_settles api check timeout w t' :
  first_within check (now w) timeout t' ->
  retry api check timeout w = (Returned tt, at_time t' w).
Proof. intros H. apply retry_Returned_iff. eauto. Qed.

(** A wait on a locator that matches several elements throws at once. *)
Lemma retry_ambiguous api check timeout w :
  check (now w) = Strict ->
  retry api check timeout w = (Thrown (StrictModeViolation api), w).
Proof.
  unfold retry. intros H.
  destruct (N.to_nat timeout); cbn [poll]; rewrite H; destruct w; reflexivity.
Qed.

Lemma bind_eq {A B : Type} (m : Test A) (k : A -> Test B) w a w1 :
  m w = (Returned a, w1) -> bind m k w = k a w1.
Proof. unfold bind. now intros ->. Qed.

Lemma bind_Thrown {A B : Type} (m : Test A) (k : A -> Test B) w e w1 :
  m w = (Thrown e, w1) -> bind m k w = (Thrown e, w1).
Proof. unfold bind. now intros ->. Qed.

Lemma goto_returns page url waitUntil w d :
  navigation page (now w) url waitUntil = Some d ->
  (d <= test_timeout)%N ->
  goto page url waitUntil w = (Returned tt, at_time (now w + Z.of_N d) w).
Proof.
  unfold goto, reach. intros -> Hd. apply N.leb_le in Hd. now rewrite Hd.
Qed.

Lemma goto_Returned_iff page url waitUntil w w' :
  goto page url waitUntil w = (Returned tt, w') <->
  exists d, navigation page (now w) url waitUntil = Some d /\
            (d <= test_timeout)%N /\ w' = at_time (now w + Z.of_N d) w.
Proof.
  split.
  - intros H. unfold goto in H. apply reach_Returned in H. exact H.
  - intros (d & Hn & Hd & ->). now apply goto_returns.
Qed.

End Waits.

(** ** Load performance, exactly *)

Module LoadPerformanceExact.

Import Config Playwright MapPage Spec Vocabulary Facts Waits.

Lemma expect_passes matcher w : expect matcher true w = (Returned tt, w).
Proof. reflexivity. Qed.

Lemma toBeLessThan_passes (x y : Q) w :
  (x < y)%Q -> toBeLessThan x y w = (Returned tt, w).
Proof. intros H. unfold toBeLessThan. apply Qltb_lt in H. now rewrite H. Qed.

Lemma Qltb_comp (x x' y : Q) : (x == x')%Q -> Qltb x y = Qltb x' y.
Proof. intros H. unfold Qltb. now rewrite H. Qed.

(** X2: of the navigation timing entries the scenario reads only
    whether there is a first one and its responseStart - requestStart:
    with any other entries that agree on these, the run is the same.
    The entry's startTime and domContentLoadedEventEnd, and so the
    [domContentLoaded] metric, and any later entry have no part in it. *)
Theorem load_performance_reads_first_response page entries t0 :
  (forall t, same_first_response (navigationEntries page t) (entries t)) ->
  run (should_load_within_acceptable_performance_thresholds
         (with_navigationEntries entries page)) t0 =
  run (should_load_within_acceptable_performance_thresholds page) t0.
Proof.
  intros Hsame.
  unfold run, should_load_within_acceptable_performance_thresholds.
  cbv zeta. generalize (start t0). intros w.
  do 7 (refine (LoadPerformance.bind_ext _ _ _ _ _); intros ? ?).
  unfold bind, evaluate, performanceMetrics.
  cbn [navigationEntries with_navigationEntries].
  match goal with |- context [entries (now ?w)] => specialize (Hsame (now w)) end.
  unfold same_first_response in Hsame.
  destruct (navigationEntries page _) as [|e rest], (entries _) as [|e' rest'];
    try contradiction; [reflexivity|].
  cbn [ttfb]. unfold toBeLessThan. now rewrite (Qltb_comp _ _ _ Hsame).
Qed.

Lemma load_performance_reads_first_response_witness :
  run (should_load_within_acceptable_performance_thresholds
         (with_navigationEntries (fun _ => shifted_entries) Samples.plain_page)) 0 =
  run (should_load_within_acceptable_performance_thresholds Samples.plain_page) 0.
Proof.
  apply (load_performance_reads_first_response Samples.plain_page
           (fun _ => shifted_entries) 0).
  intros t. vm_compute. reflexivity.
Defined.

(** X3: on a page that has no navigation timing entry the scenario
    throws a TypeError from the evaluated function, however fast the
    page was: the first element of the empty list is undefined. *)
Theorem load_performance_without_entry page t0 d t_map :
  navigation page t0 "/map" domcontentloaded = Some d ->
  Z.of_N d < 8000 ->
  first_within (attached page canvas) (t0 + Z.of_N d) 15000 t_map ->
  t_map - t0 < 15000 ->
  navigationEntries page t_map = [] ->
  run (should_load_within_acceptable_performance_thresholds page) t0 =
  (Thrown TypeError, at_time t_map (start t0)).
Proof.
  intros Hnav Hd Hfirst Hmap He.
  unfold run, should_load_within_acceptable_performance_thresholds.
  cbv zeta.
  rewrite (bind_eq _ _ _ t0 (start t0)) by reflexivity.
  rewrite (bind_eq _ _ _ tt (at_time (t0 + Z.of_N d) (start t0)))
    by (apply goto_returns; [exact Hnav | unfold test_timeout; lia]).
  rewrite (bind_eq _ _ _ (t0 + Z.of_N d) (at_time (t0 + Z.of_N d) (start t0)))
    by reflexivity.
  rewrite (bind_eq _ _ _ tt (at_time (t0 + Z.of_N d) (start t0)))
    by (apply toBeLessThan_passes, (of_Z_lt _ 8000); lia).
  rewrite (bind_eq _ _ _ tt (at_time t_map (start t0)))
    by (apply (retry_settles _ _ _ (at_time (t0 + Z.of_N d) (start t0)) t_map);
        exact Hfirst).
  rewrite (bind_eq _ _ _ t_map (at_time t_map (start t0))) by reflexivity.
  rewrite (bind_eq _ _ _ tt (at_time t_map (start t0)))
    by (apply toBeLessThan_passes, (of_Z_lt _ 15000); lia).
  unfold bind, evaluate, performanceMetrics. cbn [now at_time].
  rewrite He. reflexivity.
Qed.

Lemma load_performance_without_entry_witness :
  run (should_load_within_acceptable_performance_thresholds no_entry_page) 0 =
  (Thrown TypeError, at_time 1200 (start 0)).
Proof.
  apply (load_performance_without_entry no_entry_page 0 1200%N 1200).
  - reflexivity.
  - lia.
  - split; [split; [lia | reflexivity] | intros u Hu; lia].
  - lia.
  - reflexivity.
Defined.

End LoadPerformanceExact.

(** ** Strict mode *)

Module StrictMode.

Import Config Playwright MapPage Spec Vocabulary Facts Waits.

Lemma na_ret {A : Type} (a : A) : never_ambiguous (ret a).
Proof. intros w api. discriminate. Qed.

Lemma na_bind {A B : Type} (m : Test A) (k : A -> Test B) :
  never_ambiguous m -> (forall a, never_ambiguous (k a)) ->
  never_ambiguous (bind m k).
Proof.
  intros Hm Hk w api. specialize (Hm w api). unfold bind.
  destruct (m w) as [[a|e] w1]; cbn in *; [apply Hk|].
  intros [= ->]. now apply Hm.
Qed.

Lemma na_retry api check timeout :
  (forall u, check u <> Strict) -> never_ambiguous (retry api check timeout).
Proof.
  intros H w api'. unfold retry.
  destruct (poll check (now w) (N.to_nat timeout)) as [t|t|] eqn:Hp;
    cbn; try discriminate.
  now apply poll_never_Violated in Hp.
Qed.

Lemma the_element_first ready page t l :
  the_element ready (resolve page t (first l)) <> Strict.
Proof.
  pose proof (resolve_first page t l) as Hlen.
  destruct (resolve page t (first l)) as [|e [|e' els]]; cbn in *;
    [discriminate | destruct (ready e); discriminate | lia].
Qed.

Lemma na_expect matcher pass : never_ambiguous (expect matcher pass).
Proof. intros w api. unfold expect. destruct pass; discriminate. Qed.

Lemma na_reach api after : never_ambiguous (reach api after).
Proof.
  intros w api'. unfold reach. destruct after as [d|]; [|discriminate].
  destruct (d <=? test_timeout)%N; discriminate.
Qed.

Lemma na_goto page url waitUntil : never_ambiguous (goto page url waitUntil).
Proof. intros w. apply na_reach. Qed.

Lemma na_waitForLoadState page state : never_ambiguous (waitForLoadState page state).
Proof. intros w. apply na_reach. Qed.

Lemma na_count page l : never_ambiguous (count page l).
Proof. intros w api. discriminate. Qed.

Lemma na_element api page l : never_ambiguous (element api page l).
Proof.
  intros w api'. unfold element.
  destruct (resolve page (now w) l) as [|e [|e' els]]; discriminate.
Qed.

Lemma na_toBeVisible_first page l timeout :
  never_ambiguous (toBeVisible page (first l) timeout).
Proof. apply na_retry. intros u. apply the_element_first. Qed.

Lemma na_toBeAttached_first page l timeout :
  never_ambiguous (toBeAttached page (first l) timeout).
Proof. apply na_retry. intros u. apply the_element_first. Qed.

Lemma na_getAttribute_first page l name :
  never_ambiguous (getAttribute page (first l) name).
Proof.
  unfold getAttribute. apply na_bind.
  - apply na_retry. intros u. apply the_element_first.
  - intros _. apply na_bind; [apply na_element | intros e; apply na_ret].
Qed.

Lemma na_for_of {A : Type} (xs : list A) (body : A -> Test unit) :
  (forall x, never_ambiguous (body x)) -> never_ambiguous (for_of xs body).
Proof.
  intros Hbody. induction xs as [|x xs IH]; cbn [for_of].
  - apply na_ret.
  - apply na_bind; [apply Hbody | intros _; exact IH].
Qed.

Create HintDb strict discriminated.

#[local] Hint Resolve na_ret na_expect na_goto na_waitForLoadState na_count
  na_toBeVisible_first na_toBeAttached_first na_getAttribute_first : strict.

Ltac strict :=
  repeat first
    [ progress auto with strict
    | apply na_bind; [|intros ?]
    | apply na_for_of; intros ?
    | progress unfold toBeGreaterThanOrEqual, toBeTruthy, toBeFalsy,
        toMatch_leading_slash ].

(** X4: the scenarios that reach their elements through [first] (core
    elements, navigation links, mobile viewport) never end on a
    strict-mode violation, however many elements their locators match. *)
Theorem first_is_never_ambiguous page browser :
  never_ambiguous (should_load_page_with_all_core_UI_elements_visible page) /\
  never_ambiguous (should_have_correct_navigation_links_in_header page) /\
  never_ambiguous (should_display_correctly_on_mobile_viewport browser).
Proof.
  split; [|split].
  - unfold should_load_page_with_all_core_UI_elements_visible. cbv zeta. strict.
  - unfold should_have_correct_navigation_links_in_header. cbv zeta. strict.
  - unfold should_display_correctly_on_mobile_viewport. cbv zeta.
    apply na_bind; [intros w api; discriminate | intros context].
    apply na_bind; [apply na_ret | intros p].
    strict.
    + intros w api. discriminate.
    + intros w api. discriminate.
Qed.

(** X5: the map-interactivity scenario looks for the map container
    without [first]: on a page that has two of them when the navigation
    is over, it throws a strict-mode violation at once, whether they
    are visible or not. *)
Theorem map_interactive_two_maps page t0 d e1 e2 rest :
  navigation page t0 "/map" load = Some d ->
  (d <= test_timeout)%N ->
  resolve page (t0 + Z.of_N d) mapContainer = e1 :: e2 :: rest ->
  run (should_render_interactive_Mapbox_map page) t0 =
  (Thrown (StrictModeViolation "toBeVisible"), at_time (t0 + Z.of_N d) (start t0)).
Proof.
  intros Hnav Hd Hres.
  unfold run, should_render_interactive_Mapbox_map. cbv zeta.
  rewrite (bind_eq _ _ _ tt (at_time (t0 + Z.of_N d) (start t0)))
    by (apply goto_returns; assumption).
  apply bind_Thrown. unfold toBeVisible. apply retry_ambiguous.
  unfold visible. cbn [now at_time]. fold mapContainer. now rewrite Hres.
Qed.

Lemma map_interactive_two_maps_witness :
  run (should_render_interactive_Mapbox_map two_maps_page) 0 =
  (Thrown (StrictModeViolation "toBeVisible"), at_time (0 + Z.of_N 1200) (start 0)).
Proof.
  apply (map_interactive_two_maps two_maps_page 0 1200%N
           (Samples.element true "" "") (Samples.element true "" "") []).
  - reflexivity.
  - vm_compute. discriminate.
  - reflexivity.
Defined.

End StrictMode.

(** ** Filter toggling, before the texts are compared *)

Module FilterTogglingSteps.

Import Config Playwright MapPage Spec Vocabulary Facts.

Lemma category_Returned page category w u w' :
  toBeVisible page (getByRole "button" (Str category)) 10000 w = (Returned u, w') ->
  within (visible page (getByRole "button" (Str category))) (now w) 10000 (now w') /\
  now w <= now w'.
Proof.
  unfold toBeVisible. intros H. returned H. split; [exact H|]. destruct H. lia.
Qed.

Lemma scenario_Returned page t0 w :
  run (should_toggle_category_filters_and_update_venue_display page) t0
  = (Returned tt, w) ->
  exists initialText updatedText,
    run (venue_texts page) t0 = (Returned (initialText, updatedText), w).
Proof.
  unfold run, should_toggle_category_filters_and_update_venue_display.
  intros H. apply bind_Returned in H as ([initialText updatedText] & w1 & Ht & H).
  apply expect_Returned in H as [_ ->]. eauto.
Qed.



(** X7: because of its two fixed waits of one second, a passing run of
    the filter-toggling scenario ends at least 2000 ms after the
    network was idle, however fast the page answers. *)
Theorem filter_toggling_lasts_two_seconds page t0 w :
  run (should_toggle_category_filters_and_update_venue_display page) t0
  = (Returned tt, w) ->
  exists d d_idle,
    navigation page t0 "/map" load = Some d /\
    loadState page (t0 + Z.of_N d) networkidle = Some d_idle /\
    t0 + Z.of_N d + Z.of_N d_idle + 2000 <= now w.
Proof.
  intros H.
  apply (scenario_Returned page t0 w) in H as (initialText & updatedText & H).
  unfold run, venue_texts in H. cbv zeta in H.
  do 9 (await H). unfold ret in H. injection H as _ _ <-.
  apply (Loops.for_of_Returned (fun _ _ _ => True)) in H2 as [_ Hle];
    [|intros c w1 u w2 Hc; apply category_Returned in Hc; tauto].
  rewrite now_at_time in Hle. change (Z.of_N 1000) with 1000 in *.
  exists x, x0. split; [exact H0|]. split; [exact H1|].
  destruct H3 as [? _], H4 as [? _], H5 as [? _], H6 as [? _].
  rewrite now_at_time. lia.
Qed.

Lemma filter_toggling_lasts_two_seconds_witness :
  exists d d_idle,
    navigation Samples.toggling_page 0 "/map" load = Some d /\
    loadState Samples.toggling_page (0 + Z.of_N d) networkidle = Some d_idle /\
    0 + Z.of_N d + Z.of_N d_idle + 2000 <= now (at_time 3600 (start 0)).
Proof.
  apply (filter_toggling_lasts_two_seconds Samples.toggling_page 0
           (at_time 3600 (start 0))).
  vm_compute. reflexivity.
Defined.

End FilterTogglingSteps.

(** ** The number in the label of the "show venues" button *)

Module VenueCount.

Import Config Playwright MapPage Spec Vocabulary Facts.

Lemma append_String c s1 s2 :
  (String c s1 ++ s2)%string = String c (s1 ++ s2)%string.
Proof. reflexivity. Qed.

Lemma digits_split s :
  exists post, s = (digits s ++ post)%string /\ no_leading_digit post = true.
Proof.
  induction s as [|c s (post & Hs & Hpost)]; cbn [digits].
  - exists "". split; reflexivity.
  - destruct (is_digit c) eqn:Hc.
    + exists post. split; [rewrite append_String; f_equal; exact Hs | exact Hpost].
    + exists (String c s). split; [reflexivity | cbn; now rewrite Hc].
Qed.

Lemma digits_app g post :
  all_digits g = true -> no_leading_digit post = true ->
  digits (g ++ post)%string = g.
Proof.
  intros Hg Hpost. induction g as [|c g IH].
  - change ("" ++ post)%string with post.
    destruct post as [|c post]; [reflexivity|]. cbn in Hpost.
    apply negb_true_iff in Hpost. cbn [digits]. now rewrite Hpost.
  - cbn in Hg. apply andb_true_iff in Hg as [Hc Hg].
    rewrite append_String. cbn [digits]. rewrite Hc. now rewrite IH.
Qed.

(** X9: applied to a label, [/(\d+)/] finds its first number: the
    label is some text without a digit, then the group, a run of digits
    that is not empty, then a rest that does not go on with a digit. *)
Theorem match_digits_first_number s group1 :
  match_digits s = Some group1 <->
  exists pre post,
    s = (pre ++ group1 ++ post)%string /\
    no_digit pre = true /\
    group1 <> "" /\
    all_digits group1 = true /\
    no_leading_digit post = true.
Proof.
  split.
  - revert group1. induction s as [|c s IH]; intros group1; cbn [match_digits];
      [discriminate|].
    destruct (is_digit c) eqn:Hc.
    + intros [= <-]. destruct (digits_split (String c s)) as (post & Hs & Hpost).
      exists "", post. split; [exact Hs|]. split; [reflexivity|].
      split; [cbn; rewrite Hc; discriminate|].
      split; [apply (VenueData.all_digits_digits (String c s)) | exact Hpost].
    + intros H. apply IH in H as (pre & post & -> & Hpre & Hne & Hall & Hpost).
      exists (String c pre), post. split; [reflexivity|].
      split; [cbn [no_digit]; now rewrite Hc, Hpre | auto].
  - intros (pre & post & -> & Hpre & Hne & Hall & Hpost).
    induction pre as [|c pre IH].
    + change ("" ++ group1 ++ post)%string with (group1 ++ post)%string.
      destruct group1 as [|c g]; [contradiction|].
      pose proof Hall as Hall'. cbn in Hall'.
      apply andb_true_iff in Hall' as [Hc _].
      pose proof (digits_app (String c g) post Hall Hpost) as Hd.
      rewrite append_String in *. cbn [match_digits]. rewrite Hc.
      now rewrite Hd.
    + cbn in Hpre. apply andb_true_iff in Hpre as [Hc Hpre].
      apply negb_true_iff in Hc. rewrite append_String. cbn [match_digits].
      rewrite Hc. now apply IH.
Qed.

(** X10: the pattern finds nothing ([match] is [null]) exactly in the
    labels that have no decimal digit at all. *)
Theorem match_digits_None s : match_digits s = None <-> no_digit s = true.
Proof.
  induction s as [|c s IH]; cbn [match_digits no_digit]; [tauto|].
  destruct (is_digit c); cbn; [split; discriminate | exact IH].
Qed.

Lemma digit_zero c :
  is_digit c = true -> (Z.of_nat (nat_of_ascii c) - 48 = 0 <-> c = "0"%char).
Proof.
  intros Hc. split.
  - intros H. assert (Hn : nat_of_ascii c = 48%nat) by lia.
    rewrite <- (ascii_nat_embedding c), Hn. reflexivity.
  - intros ->. reflexivity.
Qed.

Lemma decimal_zero s : forall acc,
  all_digits s = true -> 0 <= acc ->
  (decimal acc s = 0 <-> acc = 0 /\ all_zeros s = true).
Proof.
  induction s as [|c s IH]; intros acc; cbn [decimal all_digits all_zeros].
  - intros _ _. tauto.
  - intros [Hc Hs]%andb_true_iff Hacc.
    pose proof (digit_zero c Hc) as Hz.
    assert (Hlo : 0 <= Z.of_nat (nat_of_ascii c) - 48).
    { unfold is_digit in Hc. apply andb_true_iff in Hc as [Hlo _].
      apply Nat.leb_le in Hlo. lia. }
    rewrite IH by (try exact Hs; lia).
    rewrite andb_true_iff, bool_decide_eq_true. split.
    + intros [H0 Hzs]. split; [lia|]. split; [apply Hz; lia | exact Hzs].
    + intros [-> [Hc0 Hzs]]. apply Hz in Hc0. split; [lia | exact Hzs].
Qed.

End VenueCount.

(** ** What the configuration reads of the environment *)

Module ConfigFrame.

Import Config Spec Facts.

(** X12: of the environment the configuration reads only whether
    [CI] is truthy: two environments that agree on that give the same
    configuration, whatever value [CI] has and whatever else they hold. *)
Theorem config_reads_only_CI devices (env env' : gmap string string) :
  truthy (env !! "CI") = truthy (env' !! "CI") ->
  config devices env = config devices env'.
Proof. intros H. unfold config. cbv zeta. now rewrite H. Qed.

Lemma config_reads_only_CI_witness :
  config (fun _ => MapPage.mobile) {[ "CI" := "1" ]} =
  config (fun _ => MapPage.mobile) (<[ "HOME" := "/root" ]> {[ "CI" := "true" ]}).
Proof.
  apply (config_reads_only_CI (fun _ => MapPage.mobile)). vm_compute. reflexivity.
Defined.

End ConfigFrame.

(** ** The scenarios of the [page] fixture *)

Module PageFixture.

Import Config Playwright MapPage Spec.

Lemma page_tests_leave_no_context_witness :
  leaves_no_context
    (page_test "should render interactive Mapbox map"
       should_render_interactive_Mapbox_map).
Proof.
  apply (Contexts.page_tests_leave_no_context
           "should render interactive Mapbox map"
           should_render_interactive_Mapbox_map).
  right. right. left. reflexivity.
Defined.

End PageFixture.

(** ** Navigation links: the first match of every pattern *)

Module NavigationLinksChecked.

Import Config Playwright MapPage Spec Vocabulary Facts.

Lemma take_1_cons {A : Type} (xs : list A) (x : A) :
  take 1 xs = [x] -> exists others, xs = x :: others.
Proof. destruct xs as [|y ys]; cbn; [discriminate|]. intros [= ->]. eauto. Qed.

(** C2, as the code has it: the scenario passes only if, for each of
    the four patterns [/pool.*beach/i], [/gym|fitness/i], [/family/i]
    and [/dining/i], the first link the pattern matches is attached
    within the expect timeout and, when its [href] is read, has one
    that is not empty and begins with a slash; and the first link that
    matches [/join now/i] is visible within the expect timeout and has
    an [href] that is not empty.  The pattern may match other links
    ([others]): nothing is asked of them. *)
Theorem navigation_links_first_match_pass_only_if page t0 :
  passes (should_have_correct_navigation_links_in_header page) t0 ->
  exists d,
    navigation page t0 "/map" load = Some d /\
    Forall
      (fun pattern =>
         exists t t_attached t_read e others href rest,
           t0 + Z.of_N d <= t /\
           within (attached page (first (getByRole "link" pattern)))
             t expect_timeout t_attached /\
           t_attached <= t_read <= t_attached + Z.of_N test_timeout /\
           resolve page t_read (getByRole "link" pattern) = e :: others /\
           el_attributes e !! "href" = Some href /\
           href <> "" /\
           href = String "/" rest)
      [ Regex "pool.*beach" "i"; Regex "gym|fitness" "i";
        Regex "family" "i"; Regex "dining" "i" ] /\
    exists t t_visible t_read e others href,
      t0 + Z.of_N d <= t /\
      within (visible page (first (getByRole "link" (Regex "join now" "i"))))
        t expect_timeout t_visible /\
      t_visible <= t_read <= t_visible + Z.of_N test_timeout /\
      resolve page t_read (getByRole "link" (Regex "join now" "i")) = e :: others /\
      el_attributes e !! "href" = Some href /\
      href <> "".
Proof.
  intros H. apply passes_Returned in H as [w' H].
  unfold should_have_correct_navigation_links_in_header in H. cbv zeta in H.
  await H. await H. await H. await H. returned H.
  apply (Loops.for_of_Returned (link_checked page)) in H1 as [Hall Hle];
    [|apply NavigationLinks.turn_Returned].
  rewrite now_at_time in Hall, Hle.
  apply truthy_option_string in H as (href & Hh & Hne).
  exists x. split; [exact H0|]. split.
  - change [ Regex "pool.*beach" "i"; Regex "gym|fitness" "i";
             Regex "family" "i"; Regex "dining" "i" ]
      with (name <$> expectedNavItems).
    apply Forall_fmap. eapply Forall_impl; [exact Hall|]. cbn.
    intros navItem (t & t' & Ht & HP & _).
    destruct HP as (t_attached & e & href' & rest & Ha & [Hr He] & Hhref & Hne' & Hs).
    cbn [link resolve] in He. apply take_1_cons in He as [others He].
    exists t, t_attached, t', e, others, href', rest. auto 10.
  - destruct H3 as [Hr He]. cbn [resolve] in He.
    apply take_1_cons in He as [others He].
    exists (now w), x0, x1, x2, others, href. auto 10.
Qed.

Lemma navigation_links_first_match_pass_only_if_witness :
  passes (should_have_correct_navigation_links_in_header two_dining_links_page) 0 /\
  exists d,
    navigation two_dining_links_page 0 "/map" load = Some d /\
    Forall
      (fun pattern =>
         exists t t_attached t_read e others href rest,
           0 + Z.of_N d <= t /\
           within (attached two_dining_links_page (first (getByRole "link" pattern)))
             t expect_timeout t_attached /\
           t_attached <= t_read <= t_attached + Z.of_N test_timeout /\
           resolve two_dining_links_page t_read (getByRole "link" pattern)
             = e :: others /\
           el_attributes e !! "href" = Some href /\
           href <> "" /\
           href = String "/" rest)
      [ Regex "pool.*beach" "i"; Regex "gym|fitness" "i";
        Regex "family" "i"; Regex "dining" "i" ] /\
    exists t t_visible t_read e others href,
      0 + Z.of_N d <= t /\
      within (visible two_dining_links_page
                (first (getByRole "link" (Regex "join now" "i"))))
        t expect_timeout t_visible /\
      t_visible <= t_read <= t_visible + Z.of_N test_timeout /\
      resolve two_dining_links_page t_read (getByRole "link" (Regex "join now" "i"))
        = e :: others /\
      el_attributes e !! "href" = Some href /\
      href <> "".
Proof.
  split; [vm_compute; reflexivity|].
  apply (navigation_links_first_match_pass_only_if two_dining_links_page 0).
  vm_compute. reflexivity.
Defined.

(** C2, as it is stated, fails: the scenario passes on a page on which
    [/dining/i] matches two links, not exactly one, the second of which
    leads to another site and has an [href] that does not begin with a
    slash. *)
Lemma navigation_links_two_matches :
  passes (should_have_correct_navigation_links_in_header two_dining_links_page) 0 /\
  forall t, exists e1 e2 href2,
    resolve two_dining_links_page t (getByRole "link" (Regex "dining" "i")) = [e1; e2] /\
    el_attributes e2 !! "href" = Some href2 /\
    String.get 0 href2 <> Some "/"%char.
Proof.
  split; [vm_compute; reflexivity|].
  intros t. eexists _, _, _. split; [reflexivity|]. split; [reflexivity|].
  discriminate.
Qed.

End NavigationLinksChecked.

(** ** Venue data: the indicator, the first number of the label, an image *)

Module VenueDataChecked.

Import Config Playwright MapPage Spec Vocabulary Facts.

(** A label made of a text without digits, a run of digits and a rest
    that does not go on with a digit is matched on that run. *)
Lemma first_number_matches pre group1 post :
  no_digit pre = true -> group1 <> "" -> all_digits group1 = true ->
  no_leading_digit post = true ->
  match_digits (pre ++ group1 ++ post)%string = Some group1.
Proof.
  intros Hpre Hne Hall Hpost. induction pre as [|c pre IH].
  - change ("" ++ group1 ++ post)%string with (group1 ++ post)%string.
    destruct group1 as [|c g]; [contradiction|].
    pose proof Hall as Hall'. cbn in Hall'.
    apply andb_true_iff in Hall' as [Hc _].
    pose proof (VenueCount.digits_app (String c g) post Hall Hpost) as Hd.
    rewrite VenueCount.append_String in *. cbn [match_digits]. rewrite Hc.
    now rewrite Hd.
  - cbn in Hpre. apply andb_true_iff in Hpre as [Hc Hpre].
    apply negb_true_iff in Hc. rewrite VenueCount.append_String.
    cbn [match_digits]. rewrite Hc. now apply IH.
Qed.

(** On a run of digits the accumulator of [parseInt] ends on the number
    the digits denote. *)
Lemma decimal_numeral s : forall acc,
  all_digits s = true ->
  decimal acc s = acc * 10 ^ Z.of_nat (String.length s) + Z.of_N (numeral s).
Proof.
  induction s as [|c s IH]; intros acc; cbn [decimal all_digits numeral String.length].
  - intros _. cbn. lia.
  - intros [Hc Hs]%andb_true_iff. rewrite IH by exact Hs.
    unfold is_digit in Hc. apply andb_true_iff in Hc as [Hlo _].
    apply Nat.leb_le in Hlo.
    rewrite Nat2Z.inj_succ, Z.pow_succ_r by lia.
    rewrite N2Z.inj_add, N2Z.inj_mul, N2Z.inj_pow, N2Z.inj_sub by lia.
    rewrite !nat_N_Z. cbn [Z.of_N]. ring.
Qed.

(** The optional wait for the loading indicator, with the instant the
    body goes on at. *)
Lemma loading_checked page w u w' :
  (if (0 <? N.of_nat (length (resolve page (now w) loadingText)))%N
   then toBeHidden page loadingText 15000 else ret tt) w
  = (Returned u, w') ->
  w' = at_time (now w') w /\
  now w <= now w' /\
  (resolve page (now w) loadingText <> [] ->
   within (hidden page loadingText) (now w) 15000 (now w')) /\
  (resolve page (now w) loadingText = [] -> now w' = now w).
Proof.
  intros H. destruct (0 <? _)%N eqn:Hn.
  - unfold toBeHidden in H. returned H.
    split; [reflexivity|]. split; [destruct H; lia|]. split; [auto|].
    intros Hnil. rewrite Hnil in Hn. discriminate.
  - returned H. split; [now destruct w|]. split; [lia|]. split; [|auto].
    intros Hne. apply matched_nonempty in Hne. congruence.
Qed.

(** The optional look at the label, with the instant the body goes on at. *)
Lemma label_checked page w u w' :
  (if (0 <? N.of_nat (length (resolve page (now w) showVenuesBtn)))%N then
     btnText <- textContent page showVenuesBtn ;;
     let match_ := match btnText with Some s => match_digits s | None => None end in
     match match_ with
     | Some group1 =>
         match parseInt group1 with
         | Some venueCount => toBeGreaterThan (of_Z venueCount) 0
         | None => throw (AssertionError "toBeGreaterThan")
         end
     | None => ret tt
     end
   else ret tt)%test w
  = (Returned u, w') ->
  now w <= now w' /\
  (resolve page (now w) showVenuesBtn <> [] ->
   exists e,
     reads page showVenuesBtn (now w) (now w') e /\
     forall text pre group1 post,
       el_textContent e = Some text ->
       text = (pre ++ group1 ++ post)%string ->
       no_digit pre = true ->
       group1 <> "" ->
       all_digits group1 = true ->
       no_leading_digit post = true ->
       (0 < numeral group1)%N) /\
  (resolve page (now w) showVenuesBtn = [] -> now w' = now w).
Proof.
  intros H. pose proof H as H'.
  apply VenueData.button_step in H' as [Hle Hbtn].
  split; [exact Hle|]. split.
  - intros Hne. destruct (Hbtn Hne) as (e & Hr & Hcount).
    exists e. split; [exact Hr|].
    intros text pre group1 post Ht -> Hpre Hg Hall Hpost.
    pose proof (first_number_matches pre group1 post Hpre Hg Hall Hpost) as Hm.
    destruct (Hcount _ _ Ht Hm) as (venueCount & Hp & Hpos).
    destruct (VenueData.parseInt_match_digits _ _ Hm) as [Hp' _].
    rewrite Hp' in Hp. injection Hp as <-.
    rewrite (decimal_numeral _ 0 Hall) in Hpos. lia.
  - intros Hnil. rewrite Hnil in H. cbn in H. now returned H.
Qed.

(** C6: the scenario passes only if, at the instant the network is
    idle after the navigation, the loading indicator is not matched or
    else is hidden within 15000 ms; then the show-venues button is not
    matched or else, when its label is read and has a first number (a
    run of digits after a text without digits), that number is
    positive; and then the page has an image. *)
Theorem venue_data_checked_pass_only_if page t0 :
  passes (should_display_venue_data_after_loading page) t0 ->
  exists d d_idle t_button t_images,
    navigation page t0 "/map" load = Some d /\
    loadState page (t0 + Z.of_N d) networkidle = Some d_idle /\
    (resolve page (t0 + Z.of_N d + Z.of_N d_idle) loadingText <> [] ->
       within (hidden page loadingText) (t0 + Z.of_N d + Z.of_N d_idle) 15000 t_button) /\
    (resolve page (t0 + Z.of_N d + Z.of_N d_idle) loadingText = [] ->
       t_button = t0 + Z.of_N d + Z.of_N d_idle) /\
    (resolve page t_button showVenuesBtn <> [] ->
       exists e,
         reads page showVenuesBtn t_button t_images e /\
         forall text pre group1 post,
           el_textContent e = Some text ->
           text = (pre ++ group1 ++ post)%string ->
           no_digit pre = true ->
           group1 <> "" ->
           all_digits group1 = true ->
           no_leading_digit post = true ->
           (0 < numeral group1)%N) /\
    (resolve page t_button showVenuesBtn = [] -> t_images = t_button) /\
    resolve page t_images images <> [].
Proof.
  intros H. apply passes_Returned in H as [w' H].
  unfold should_display_venue_data_after_loading in H. cbv zeta in H.
  await H. await H. await H.
  apply bind_Returned in H as (u1 & w1 & Hloading & H).
  apply (loading_checked page (at_time _ (start t0))) in Hloading
    as (Hw1 & _ & Hshown & Hgone).
  rewrite now_at_time in Hshown, Hgone.
  await H.
  apply bind_Returned in H as (u2 & w2 & Hbutton & H).
  apply label_checked in Hbutton as (_ & Hlabel & Hnone).
  await H. unfold toBeGreaterThan in H. returned H.
  apply of_N_gt0 in H. apply N.ltb_lt, matched_nonempty in H.
  exists x, x0, (now w1), (now w2). auto 10.
Qed.

Lemma venue_data_checked_pass_only_if_witness :
  passes (should_display_venue_data_after_loading loading_page) 0 /\
  exists d d_idle t_button t_images,
    navigation loading_page 0 "/map" load = Some d /\
    loadState loading_page (0 + Z.of_N d) networkidle = Some d_idle /\
    (resolve loading_page (0 + Z.of_N d + Z.of_N d_idle) loadingText <> [] ->
       within (hidden loading_page loadingText) (0 + Z.of_N d + Z.of_N d_idle)
         15000 t_button) /\
    (resolve loading_page (0 + Z.of_N d + Z.of_N d_idle) loadingText = [] ->
       t_button = 0 + Z.of_N d + Z.of_N d_idle) /\
    (resolve loading_page t_button showVenuesBtn <> [] ->
       exists e,
         reads loading_page showVenuesBtn t_button t_images e /\
         forall text pre group1 post,
           el_textContent e = Some text ->
           text = (pre ++ group1 ++ post)%string ->
           no_digit pre = true ->
           group1 <> "" ->
           all_digits group1 = true ->
           no_leading_digit post = true ->
           (0 < numeral group1)%N) /\
    (resolve loading_page t_button showVenuesBtn = [] -> t_images = t_button) /\
    resolve loading_page t_images images <> [].
Proof.
  split; [vm_compute; reflexivity|].
  apply (venue_data_checked_pass_only_if loading_page 0). vm_compute. reflexivity.
Defined.

(** On the sample page the indicator is matched when the network is
    idle, at 1600 ms, and gone at 2000 ms, where the body goes on. *)
Example loading_page_run :
  resolve loading_page 1600 loadingText <> [] /\
  run (should_display_venue_data_after_loading loading_page) 0 =
  (Returned tt, at_time 2000 (start 0)).
Proof. split; [discriminate | vm_compute; reflexivity]. Qed.

End VenueDataChecked.

(** ** What the navigation-links scenario does not read *)

Module NavigationLinksFrame.

Import Config Playwright MapPage Spec Vocabulary Facts Waits.

Lemma take_map {A B : Type} (f : A -> B) n (xs : list A) :
  take n (List.map f xs) = List.map f (take n xs).
Proof.
  revert xs. induction n as [|n IH]; intros [|x xs]; cbn; try reflexivity.
  now rewrite IH.
Qed.

Lemma the_element_attached_map (f : Element -> Element) els :
  the_element (fun _ => true) (List.map f els) = the_element (fun _ => true) els.
Proof. destruct els as [|e [|e' els]]; reflexivity. Qed.

Lemma retry_ext api check check' timeout w :
  (forall u, check u = check' u) ->
  retry api check timeout w = retry api check' timeout w.
Proof. intros H. unfold retry. now rewrite (poll_ext check check'). Qed.

Lemma bind_ext2 {A B : Type} (m m' : Test A) (k k' : A -> Test B) w :
  m w = m' w -> (forall a w', k a w' = k' a w') -> bind m k w = bind m' k' w.
Proof.
  intros Hm Hk. unfold bind. rewrite Hm.
  destruct (m' w) as [[a|e] w']; [apply Hk | reflexivity].
Qed.

Lemma for_of_ext {A : Type} (xs : list A) (body body' : A -> Test unit) :
  (forall x w, body x w = body' x w) ->
  forall w, for_of xs body w = for_of xs body' w.
Proof.
  induction xs as [|x xs IH]; intros H w; cbn [for_of]; [reflexivity|].
  apply bind_ext2; [apply H|]. intros _ w'. now apply IH.
Qed.

Section Shown.

Variable shown : Z -> Element -> bool.
Variable page : Page.

Lemma resolve_with_visibility l t :
  resolve (with_visibility shown page) t l =
  List.map (fun e => with_visible (shown t e) e) (resolve page t l).
Proof.
  induction l as [s|r n|s|l IH p|l IH]; cbn [resolve dom with_visibility];
    try reflexivity.
  rewrite IH. apply take_map.
Qed.

Lemma attached_with_visibility l t :
  attached (with_visibility shown page) l t = attached page l t.
Proof.
  unfold attached. rewrite resolve_with_visibility.
  apply the_element_attached_map.
Qed.

Lemma getAttribute_with_visibility l name w :
  getAttribute (with_visibility shown page) l name w = getAttribute page l name w.
Proof.
  unfold getAttribute, bind.
  rewrite (retry_ext _ _ (attached page l))
    by (intros u; apply attached_with_visibility).
  destruct (retry _ _ _ w) as [[[]|e] w1]; [|reflexivity].
  unfold element. rewrite resolve_with_visibility.
  destruct (resolve page (now w1) l) as [|e [|e' els]]; reflexivity.
Qed.

(** The first link that matches [/join now/i] is shown as it was. *)
Hypothesis join_kept : forall t e others,
  dom page t (getByRole "link" (Regex "join now" "i")) = e :: others ->
  shown t e = el_visible e.

Lemma visible_joinLink t :
  visible (with_visibility shown page) joinLink t = visible page joinLink t.
Proof.
  unfold visible. rewrite resolve_with_visibility.
  unfold joinLink. cbn [resolve].
  destruct (dom page t (getByRole "link" (Regex "join now" "i")))
    as [|e others] eqn:Hd; [reflexivity|].
  cbn. now rewrite (join_kept t e others Hd).
Qed.

(** X8: of the visibility of the elements its locators match, the
    navigation-links scenario reads only that of the first link that
    matches [/join now/i]: with the same elements matched, shown or not
    in any other way at any instant, the run is the same.  Of the four
    navigation links it asks that they be attached and reads their
    [href]; it never asks whether they are visible. *)
Theorem navigation_links_read_no_visibility t0 :
  run (should_have_correct_navigation_links_in_header
         (with_visibility shown page)) t0 =
  run (should_have_correct_navigation_links_in_header page) t0.
Proof.
  unfold run, should_have_correct_navigation_links_in_header. cbv zeta.
  generalize (start t0). intros w.
  refine (LoadPerformance.bind_ext _ _ _ _ _). intros _ w1.
  apply bind_ext2.
  - apply for_of_ext. intros navItem w2.
    apply bind_ext2.
    + apply retry_ext. intros u. apply attached_with_visibility.
    + intros _ w3. apply bind_ext2; [apply getAttribute_with_visibility|].
      reflexivity.
  - intros _ w2. apply bind_ext2.
    + apply retry_ext. intros u. apply visible_joinLink.
    + intros _ w3. apply bind_ext2; [|reflexivity].
      apply getAttribute_with_visibility.
Qed.

End Shown.

Lemma navigation_links_read_no_visibility_witness :
  run (should_have_correct_navigation_links_in_header
         (with_visibility only_join_shown labelled_page)) 0 =
  run (should_have_correct_navigation_links_in_header labelled_page) 0.
Proof.
  apply (navigation_links_read_no_visibility only_join_shown labelled_page).
  intros t e others H. vm_compute in H. injection H as <- _. reflexivity.
Defined.

(** On the sample page the four navigation links are not visible once
    only the join-now link is shown, and the scenario passes. *)
Example hidden_nav_links_pass :
  passes (should_have_correct_navigation_links_in_header
            (with_visibility only_join_shown labelled_page)) 0 /\
  forall t e,
    In e (resolve (with_visibility only_join_shown labelled_page) t
            (getByRole "link" (Regex "dining" "i"))) ->
    el_visible e = false.
Proof.
  split; [vm_compute; reflexivity|]. intros t e [<-|[]]. reflexivity.
Qed.

End NavigationLinksFrame.

(** ** The expectation on the venue count *)

Module VenueCountExpectation.

Import Config Playwright MapPage Spec Vocabulary Facts.

(** The body of the venue-data scenario, with the two lines named. *)
Lemma venue_data_body page :
  should_display_venue_data_after_loading page =
  (goto page "/map" load ;;
   waitForLoadState page networkidle ;;
   n <- count page loadingText ;;
   (if (0 <? n)%N then toBeHidden page loadingText 15000 else ret tt) ;;
   n <- count page showVenuesBtn ;;
   (if (0 <? n)%N then
      btnText <- textContent page showVenuesBtn ;;
      match match btnText with Some s => match_digits s | None => None end with
      | Some group1 => expect_venueCount group1
      | None => ret tt
      end
    else ret tt) ;;
   imageCount <- count page images ;;
   toBeGreaterThan (of_N imageCount) 0)%test.
Proof. reflexivity. Qed.

(** X11: on the group the pattern finds in a label, the expectation on
    [venueCount] throws exactly when every digit of the group is a
    zero, and returns otherwise: the group always parses to a number,
    which is zero or positive (a sign before the digits is not part of
    the group).  So the expectation fails on "Show 0 venues" and on
    "Show 00 venues", and on no label whose first number has another
    digit. *)
Theorem venue_count_expectation s group1 w :
  match_digits s = Some group1 ->
  expect_venueCount group1 w =
  if all_zeros group1
  then (Thrown (AssertionError "toBeGreaterThan"), w)
  else (Returned tt, w).
Proof.
  intros H. destruct (VenueData.parseInt_match_digits s group1 H) as [Hp Hn].
  apply VenueData.match_digits_Some in H as (c & rest & _ & _ & Hall).
  pose proof (VenueCount.decimal_zero group1 0 Hall (Z.le_refl 0)) as Hz.
  unfold expect_venueCount, toBeGreaterThan. rewrite Hp.
  destruct (all_zeros group1).
  - assert (Hq : Qltb 0 (of_Z (decimal 0 group1)) = false).
    { apply not_true_iff_false. rewrite of_Z_gt0. lia. }
    now rewrite Hq.
  - assert (Hq : Qltb 0 (of_Z (decimal 0 group1)) = true).
    { apply of_Z_gt0. assert (decimal 0 group1 <> 0) by (intros E; apply Hz in E; destruct E; discriminate). lia. }
    now rewrite Hq.
Qed.

Lemma venue_count_expectation_witness :
  expect_venueCount "24" (start 0) =
  if all_zeros "24"
  then (Thrown (AssertionError "toBeGreaterThan"), start 0)
  else (Returned tt, start 0).
Proof.
  apply (venue_count_expectation "Show -24 of 100 venues" "24" (start 0)).
  reflexivity.
Defined.

End VenueCountExpectation.

(** ** The zoom controls *)

Module ZoomControls.

Import Config Playwright MapPage Spec Vocabulary Facts.

(** X16: whether to click or to measure the canvas is decided by the
    zoom-in control alone: on a page that has a zoom-in control and
    whose zoom-out control is never actionable, the scenario does not
    pass, whatever the size of the canvas; it does not fall back on the
    bounding box. *)
Theorem map_interactive_needs_zoom_out page t0 :
  (forall t, resolve page t zoomIn <> []) ->
  (forall t, actionable page zoomOut t <> Holds) ->
  ~ passes (should_render_interactive_Mapbox_map page) t0.
Proof.
  intros Hin Hout H. apply passes_Returned in H as [w' H].
  unfold should_render_interactive_Mapbox_map in H. cbv zeta in H.
  await H. await H. await H. await H.
  destruct (0 <? _)%N eqn:Hn.
  - unfold click in H. await H. await H. returned H.
    destruct H as [_ Hholds]. now apply Hout in Hholds.
  - specialize (Hin x1). apply matched_nonempty in Hin.
    fold zoomIn in Hn. congruence.
Qed.

Lemma map_interactive_needs_zoom_out_witness :
  ~ passes (should_render_interactive_Mapbox_map no_zoom_out_page) 0.
Proof.
  apply (map_interactive_needs_zoom_out no_zoom_out_page 0).
  - intros t. discriminate.
  - intros t. discriminate.
Defined.

End ZoomControls.
